(** * Authentication context of the marketing site

    A shallow embedding of [src/contexts/AuthContext.tsx]: the session
    mirror ([AuthProvider] with its [useEffect]), the credential
    operations ([signUp], [signIn], [signOut], [signInWithGoogle]) and
    the [useAuth] hook, together with the part of the browser and of
    React that these functions act on.

    Asynchronous functions are cut at their [await]s: every stretch of
    code between two suspension points is one atomic segment, the
    suspended continuation is a [Task] kept in the provider state, and
    the environment resumes it with a [Reply].

    The repository also holds two earlier copies of the provider, whose
    effect has an empty dependency array and whose operations do not
    touch [loading]; the development follows the copy the application
    imports. *)

From stdpp Require Import base option list gmap strings.
From Stdlib Require Import Ascii String Bool Lia.

Open Scope string_scope.

(** ** JavaScript string primitives used by the source *)

Module Js.

(** [s.startsWith(p)] *)
Fixpoint startsWith (s p : string) {struct s} : bool :=
  match p with
  | EmptyString => true
  | String b p' =>
      match s with
      | EmptyString => false
      | String a s' => if Ascii.eqb a b then startsWith s' p' else false
      end
  end.

(** [s.includes(needle)]: case-sensitive substring test. *)
Fixpoint includes (s needle : string) {struct s} : bool :=
  startsWith s needle ||
  match s with
  | EmptyString => false
  | String _ s' => includes s' needle
  end.

(** [a || b] on strings: the empty string is the only falsy string. *)
Definition or_else (a b : string) : string :=
  match a with
  | EmptyString => b
  | String _ _ => a
  end.

(** [o || b] where [o] may be [undefined]. *)
Definition or_default (o : option string) (b : string) : string :=
  match o with
  | Some a => or_else a b
  | None => b
  end.

(** [s.split(sep)] for a one-character separator: never empty. *)
Fixpoint split (sep : ascii) (s : string) : list string :=
  match s with
  | EmptyString => [EmptyString]
  | String a s' =>
      if Ascii.eqb a sep then EmptyString :: split sep s'
      else match split sep s' with
           | [] => [String a EmptyString]
           | w :: ws => String a w :: ws
           end
  end.

(** [s.replace(/^ +/, "")]: drop the leading run of U+0020. *)
Fixpoint strip_leading_spaces (s : string) : string :=
  match s with
  | String " " s' => strip_leading_spaces s'
  | _ => s
  end.

(** The regular expression dot matches every character except the line
    terminators LF, CR, U+2028 and U+2029.  Strings are sequences of
    UTF-8 bytes, where the last two are the byte sequences E2 80 A8 and
    E2 80 A9. *)
Definition at_line_terminator (s : string) : bool :=
  match s with
  | String a _ => Ascii.eqb a "010" || Ascii.eqb a "013"
  | EmptyString => false
  end
  || startsWith s (String "226" (String "128" (String "168" EmptyString)))
  || startsWith s (String "226" (String "128" (String "169" EmptyString))).

(** The suffix left over after a greedy [.*] has consumed [s]. *)
Fixpoint after_dot_star (s : string) : string :=
  match s with
  | EmptyString => EmptyString
  | String _ s' => if at_line_terminator s then s else after_dot_star s'
  end.

(** [s.replace(/=.*/, r)] for a replacement [r] without dollar
    patterns: the first ["="] and the rest of its line become [r];
    a string without ["="] is returned unchanged. *)
Fixpoint replace_eq_rest (s r : string) : string :=
  match s with
  | EmptyString => EmptyString
  | String a s' =>
      if Ascii.eqb a "=" then r +:+ after_dot_star s'
      else String a (replace_eq_rest s' r)
  end.

(** [parts.join(sep)] *)
Fixpoint join (sep : string) (parts : list string) : string :=
  match parts with
  | [] => EmptyString
  | [p] => p
  | p :: ps => p +:+ sep +:+ join sep ps
  end.

(** No occurrence of the character [c] in [s]. *)
Fixpoint lacks (c : ascii) (s : string) : bool :=
  match s with
  | EmptyString => true
  | String a s' => negb (Ascii.eqb a c) && lacks c s'
  end.

End Js.

(** ** Data model *)

(** The local projection kept by the provider ([User] of [types/auth]). *)
Record User := mkUser {
  id : string;
  email : string;
  username : option string
}.

(** The user record embedded in a remote session: [email] is optional
    there, and [username] is read through [user_metadata?.username]. *)
Record RemoteUser := mkRemoteUser {
  remote_id : string;
  remote_email : option string;
  metadata_username : option string
}.

(** A remote session: an opaque token bundle and the embedded user. *)
Record Session := mkSession {
  access_token : string;
  session_user : RemoteUser
}.

(** The object literal passed to [setUser] at both places of the source:
    [{ id: session.user.id, email: session.user.email || '',
       username: session.user.user_metadata?.username }]. *)
Definition user_of_session (s : Session) : User :=
  {| id := remote_id (session_user s);
     email := Js.or_default (remote_email (session_user s)) "";
     username := metadata_username (session_user s) |}.

(** The [error] member of a remote result. *)
Record AuthError := mkAuthError { message : string }.

(** Values that travel through [throw]: an [Error] built by this module
    with [new Error(msg)], or whatever the remote client threw. *)
Inductive Thrown :=
| NewError (msg : string)
| Foreign (e : AuthError).

Definition thrown_message (t : Thrown) : string :=
  match t with
  | NewError m => m
  | Foreign e => message e
  end.

(** How a call ends: it returns a value (an [async] function fulfils its
    promise with it) or it throws (an [async] function rejects). *)
Inductive Completion (A : Type) :=
| Fulfilled (a : A)
| Rejected (e : Thrown).
Arguments Fulfilled {A} a.
Arguments Rejected {A} e.

(** The [data] member of a remote result, returned raw by the facade. *)
Record RemoteData := mkRemoteData {
  data_session : option Session;
  data_user : option RemoteUser
}.

(** What an awaited remote promise settles to: the [{ data, error }]
    object, or an exception thrown by the client. *)
Inductive Reply :=
| Resolved (data : RemoteData) (error : option AuthError)
| Raised (e : AuthError).

(** ** Error classification of the facade *)

(** The [if (error)] block of [signUp]: the message of the thrown error. *)
Definition signUp_error_message (msg : string) : string :=
  if Js.includes msg "already registered" then
    "An account with this email already exists. Please sign in instead."
  else if Js.includes msg "Invalid email" then
    "Please enter a valid email address."
  else if Js.includes msg "Password" then
    "Password must be at least 6 characters long."
  else Js.or_else msg "Account creation failed. Please try again.".

(** The [if (error)] block of [signIn]. *)
Definition signIn_error_message (msg : string) : string :=
  if Js.includes msg "Invalid login credentials" then
    "Invalid email or password. Please check your credentials and try again."
  else if Js.includes msg "Email not confirmed" then
    "Please check your email and click the verification link before signing in."
  else if Js.includes msg "Too many requests" then
    "Too many login attempts. Please wait a moment and try again."
  else Js.or_else msg "Sign in failed. Please try again.".

(** ** The browser boundary

    Modelled from the browser's behaviour: the Web Storage areas, the
    cookie store behind [document.cookie], the session history behind
    [window.location] and the clock behind [new Date()] are not code of
    the repository. *)

(** The two renderings the source takes of [new Date()]. *)
Record Date := mkDate {
  utc_string : string;   (* [toUTCString()] *)
  iso_string : string    (* [toISOString()] *)
}.


(** A stored cookie.  The store identifies a cookie by its name, its
    domain together with the host-only flag, its path and its partition;
    a cookie set without a [Domain] attribute is host-only and has the
    host of the document as its domain. *)
Record Cookie := mkCookie {
  cookie_name : string;
  cookie_value : string;
  cookie_domain : string;
  cookie_host_only : bool;      (* set without a [Domain] attribute *)
  cookie_path : string;
  cookie_secure : bool;         (* set with [Secure] *)
  cookie_http_only : bool;      (* set with [HttpOnly] *)
  cookie_partitioned : bool     (* set with [Partitioned] *)
}.

Record Browser := mkBrowser {
  localStorage : gmap string string;
  sessionStorage : gmap string string;
  cookie_jar : list Cookie;     (* the cookie store, oldest cookie first *)
  history : list string;        (* session history, current entry first *)
  origin : string;              (* [window.location.origin] *)
  clock : Date
}.

Definition with_localStorage (m : gmap string string) (b : Browser) : Browser :=
  mkBrowser m (sessionStorage b) (cookie_jar b) (history b) (origin b) (clock b).
Definition with_sessionStorage (m : gmap string string) (b : Browser) : Browser :=
  mkBrowser (localStorage b) m (cookie_jar b) (history b) (origin b) (clock b).
Definition with_cookie_jar (j : list Cookie) (b : Browser) : Browser :=
  mkBrowser (localStorage b) (sessionStorage b) j (history b) (origin b) (clock b).
Definition with_history (h : list string) (b : Browser) : Browser :=
  mkBrowser (localStorage b) (sessionStorage b) (cookie_jar b) h (origin b) (clock b).
Definition with_clock (d : Date) (b : Browser) : Browser :=
  mkBrowser (localStorage b) (sessionStorage b) (cookie_jar b) (history b) (origin b) d.

Module Dom.

(** [localStorage.clear()] and [sessionStorage.clear()] *)
Definition localStorage_clear (b : Browser) : Browser := with_localStorage ∅ b.
Definition sessionStorage_clear (b : Browser) : Browser := with_sessionStorage ∅ b.

(** [window.location.pathname] *)
Definition pathname (b : Browser) : string :=
  match history b with
  | [] => "/"
  | p :: _ => p
  end.

(** [window.location.replace(url)]: the current history entry is
    overwritten, no entry is added. *)
Definition location_replace (url : string) (b : Browser) : Browser :=
  with_history (url :: tail (history b)) b.

(** *** The document, as the cookie store sees it *)

(** The text after the ["://"] of an origin. *)
Fixpoint after_scheme (s : string) : string :=
  match s with
  | EmptyString => EmptyString
  | String a s' =>
      if Ascii.eqb a ":" && Js.startsWith s' "//" then
        match s' with
        | String _ (String _ rest) => rest
        | _ => EmptyString
        end
      else after_scheme s'
  end.

(** The text before the first occurrence of [c], or all of it. *)
Fixpoint before (c : ascii) (s : string) : string :=
  match s with
  | EmptyString => EmptyString
  | String a s' => if Ascii.eqb a c then EmptyString else String a (before c s')
  end.

(** The host of the document: the origin without its scheme and port
    (an IPv6 literal keeps its brackets). *)
Definition hostname (b : Browser) : string :=
  match after_scheme (origin b) with
  | String "[" rest => String "[" (before "]" rest) +:+ "]"
  | authority => before ":" authority
  end.

(** Whether the document was loaded over a secure scheme. *)
Definition secure_context (b : Browser) : bool :=
  Js.startsWith (origin b) "https://".

(** The path of the document's URL, which starts with ["/"]. *)
Definition request_path (b : Browser) : string :=
  match pathname b with
  | String "/" _ as p => p
  | _ => "/"
  end.

(** The directory of the document's path, the path a cookie gets when
    the assignment names none. *)
Fixpoint directory (p : string) : string :=
  match p with
  | EmptyString => EmptyString
  | String a p' =>
      if Js.lacks "/" p' then EmptyString else String a (directory p')
  end.

Definition default_path (b : Browser) : string :=
  match pathname b with
  | String "/" _ as p => Js.or_else (directory p) "/"
  | _ => "/"
  end.

(** *** Matching cookies against the document *)

Fixpoint ends_with (s suffix : string) : bool :=
  String.eqb s suffix ||
  match s with
  | EmptyString => false
  | String _ s' => ends_with s' suffix
  end.

(** A host domain-matches a cookie domain when they are the same or the
    host ends with a dot followed by the domain. *)
Definition domain_match (host domain : string) : bool :=
  String.eqb host domain || ends_with host (String "." domain).

(** What is left of [s] after the prefix [p]. *)
Fixpoint strip_prefix (p s : string) : option string :=
  match p with
  | EmptyString => Some s
  | String a p' =>
      match s with
      | EmptyString => None
      | String b s' => if Ascii.eqb a b then strip_prefix p' s' else None
      end
  end.

(** A request path path-matches a cookie path when they are the same, or
    the cookie path is a prefix of it that ends with ["/"] or is followed
    by ["/"]. *)
Definition path_match (request path : string) : bool :=
  match strip_prefix path request with
  | None => false
  | Some rest =>
      String.eqb rest "" || ends_with path "/" || Js.startsWith rest "/"
  end.

(** The cookies a script of the document can read: not [HttpOnly],
    [Secure] ones only in a secure context, of a matching domain and a
    matching path. *)
Definition visible (b : Browser) (c : Cookie) : bool :=
  negb (cookie_http_only c)
  && (negb (cookie_secure c) || secure_context b)
  && (if cookie_host_only c then String.eqb (hostname b) (cookie_domain c)
      else domain_match (hostname b) (cookie_domain c))
  && path_match (request_path b) (cookie_path c).

(** Cookies with longer paths are listed first; among cookies with paths
    of the same length the older one comes first. *)
Fixpoint insert_by_path (c : Cookie) (l : list Cookie) : list Cookie :=
  match l with
  | [] => [c]
  | x :: l' =>
      if (String.length (cookie_path c) <? String.length (cookie_path x))%nat
      then x :: insert_by_path c l'
      else c :: l
  end.

Definition listed (b : Browser) : list Cookie :=
  foldr insert_by_path [] (filter (λ c, visible b c = true) (cookie_jar b)).

(** How the cookie store lists one cookie: [name=value], or the bare
    value for a cookie stored without a name. *)
Definition cookie_pair (c : Cookie) : string :=
  match cookie_name c with
  | EmptyString => cookie_value c
  | String _ _ => cookie_name c +:+ "=" +:+ cookie_value c
  end.

(** Reading [document.cookie]. *)
Definition document_cookie (b : Browser) : string :=
  Js.join "; " (cookie_pair <$> listed b).

(** *** Parsing a cookie string *)

Definition is_wsp (a : ascii) : bool :=
  Ascii.eqb a " " || Ascii.eqb a "009".

Fixpoint trim_left (s : string) : string :=
  match s with
  | EmptyString => EmptyString
  | String a s' => if is_wsp a then trim_left s' else s
  end.

Fixpoint trim_right (s : string) : string :=
  match s with
  | EmptyString => EmptyString
  | String a s' =>
      match trim_right s' with
      | EmptyString => if is_wsp a then EmptyString else String a EmptyString
      | String _ _ as r => String a r
      end
  end.

Definition trim (s : string) : string := trim_right (trim_left s).

(** The control characters, the tab excepted: a cookie string that holds
    one is ignored as a whole. *)
Definition is_ctl (a : ascii) : bool :=
  let n := N_of_ascii a in
  (n <=? 8)%N || ((10 <=? n)%N && (n <=? 31)%N) || (n =? 127)%N.

Fixpoint ctl_free (s : string) : bool :=
  match s with
  | EmptyString => true
  | String a s' => negb (is_ctl a) && ctl_free s'
  end.

Definition lower (a : ascii) : ascii :=
  let n := N_of_ascii a in
  if (65 <=? n)%N && (n <=? 90)%N then ascii_of_N (n + 32) else a.

Fixpoint lower_string (s : string) : string :=
  match s with
  | EmptyString => EmptyString
  | String a s' => String (lower a) (lower_string s')
  end.

(** The text before and after the first occurrence of [c]. *)
Fixpoint cut_at (c : ascii) (s : string) : option (string * string) :=
  match s with
  | EmptyString => None
  | String a s' =>
      if Ascii.eqb a c then Some (EmptyString, s')
      else match cut_at c s' with
           | Some (l, r) => Some (String a l, r)
           | None => None
           end
  end.

(** The [name=value] piece, trimmed; a piece without ["="] is a value
    without a name. *)
Definition parse_pair (piece : string) : string * string :=
  match cut_at "=" piece with
  | Some (l, r) => (trim l, trim r)
  | None => (EmptyString, trim piece)
  end.

(** An attribute piece, trimmed, its name in lower case; a piece without
    ["="] is an attribute without a value. *)
Definition parse_attribute (piece : string) : string * string :=
  match cut_at "=" piece with
  | Some (l, r) => (lower_string (trim l), trim r)
  | None => (lower_string (trim piece), EmptyString)
  end.

(** The attribute named [key] (in lower case); the last occurrence
    wins. *)
Definition attribute (key : string) (attrs : list (string * string)) : option string :=
  foldl (fun found kv => if String.eqb (fst kv) key then Some (snd kv) else found)
        None attrs.

(** *** Writing to the cookie store *)

(** The path of a cookie written with this [path] attribute: the
    attribute when it starts with ["/"], the default path when not. *)
Definition written_path (value : option string) (default : string) : string :=
  match value with
  | Some (String "/" _ as p) => p
  | _ => default
  end.

(** A name with the [__Secure-] or the [__Host-] prefix, in any case, is
    accepted only for a cookie with the [Secure] attribute; for a cookie
    without a name the value is looked at instead. *)
Definition prefixed (name : string) : bool :=
  Js.startsWith (lower_string name) "__secure-"
  || Js.startsWith (lower_string name) "__host-".

(** The cookie that a host-only, unpartitioned cookie of this name, host
    and path replaces. *)
Definition addressed (name host path : string) (c : Cookie) : bool :=
  String.eqb (cookie_name c) name
  && String.eqb (cookie_domain c) host && cookie_host_only c
  && String.eqb (cookie_path c) path
  && negb (cookie_partitioned c).

(** A stored cookie that keeps a script from storing a cookie without
    the [Secure] attribute under this name, host and path: the
    [HttpOnly] cookie it would replace, and, outside a secure context, a
    [Secure] cookie of the same name with a related domain and a path
    that the new path matches. *)
Definition blocks (host : string) (secure : bool) (name path : string) (c : Cookie)
    : bool :=
  (cookie_http_only c && addressed name host path c)
  || (negb secure && cookie_secure c && String.eqb (cookie_name c) name
      && (domain_match host (cookie_domain c) || domain_match (cookie_domain c) host)
      && path_match path (cookie_path c)).

(** The store without the cookie addressed. *)
Definition evict (name host path : string) (jar : list Cookie) : list Cookie :=
  filter (λ c, addressed name host path c = false) jar.

(** The store with [new] in the place of the cookie it replaces, or at
    the end when it replaces none. *)
Definition put (new : Cookie) (jar : list Cookie) : list Cookie :=
  let old := addressed (cookie_name new) (cookie_domain new) (cookie_path new) in
  if existsb old jar then (λ c, if old c then new else c) <$> jar
  else jar ++ [new].

(** The cookie store after a script of a document (with this host, this
    default path, in a secure context or not) assigned the cookie string
    [s].  The first piece is the cookie pair, the others are attributes,
    of which [path] and [expires] are read: the strings that [signOut]
    assigns hold no others, so the cookie written is host-only and
    unpartitioned and has neither [Secure] nor [HttpOnly].  A string
    with a control character and a cookie with neither name nor value
    are ignored, and so is a write that the name's prefix or a stored
    cookie forbids.  Otherwise the cookie addressed is evicted when the
    new cookie is already expired, and replaced by it when not.  The only
    [expires] date the store can compare with the clock is the rendering
    [now] of the present instant, which is not in the future. *)
Definition store_cookie (s : string) (host default : string) (secure : bool)
    (now : string) (jar : list Cookie) : list Cookie :=
  if negb (ctl_free s) then jar
  else
    match Js.split ";" s with
    | [] => jar
    | piece :: rest =>
        let '(name, value) := parse_pair piece in
        match name, value with
        | EmptyString, EmptyString => jar
        | _, _ =>
            let attrs := parse_attribute <$> rest in
            let path := written_path (attribute "path" attrs) default in
            let expired :=
              match attribute "expires" attrs with
              | Some d => String.eqb d now
              | None => false
              end in
            if prefixed (Js.or_else name value)
               || existsb (blocks host secure name path) jar then jar
            else if expired then evict name host path jar
            else put (mkCookie name value host true path false false false) jar
        end
    end.

(** Assigning [document.cookie = s]. *)
Definition set_document_cookie (s : string) (b : Browser) : Browser :=
  with_cookie_jar
    (store_cookie s (hostname b) (default_path b) (secure_context b)
       (utc_string (clock b)) (cookie_jar b)) b.

End Dom.

(** ** The provider and its environment *)

(** Requests the module sends to the remote client. *)
Inductive RemoteCall :=
| GetSession
| GetUser
| SignUp (email password username emailRedirectTo : string)
| SignInWithPassword (email password : string)
| SignOut
| SignInWithOAuth (provider redirectTo : string)
| Upsert (row_id : string) (row_email : option string) (created_at : string).

Inductive Operation :=
| OpInitializeAuth | OpHandler
| OpSignUp | OpSignIn | OpSignOut | OpSignInWithGoogle.

(** What the module does to its surroundings, newest entry first. *)
Inductive Entry :=
| Called (c : RemoteCall)
| Subscribed (sub : nat)
| Unsubscribed (sub : nat)
| ConsoleLog (label : string)
| ConsoleError (label : string)
| TimerSet (ms : nat)
| Finished (op : Operation) (c : Completion (option RemoteData)).

(** A suspended [async] function: the [await] it is parked at, with the
    variables its continuation still reads. *)
Inductive Task :=
| AwaitGetSession                       (* [initializeAuth] at [getSession()] *)
| AwaitGetUser (session : Session)      (* [initializeAuth] at [getUser()] *)
| AwaitUpsert (closure_loading : bool)  (* the handler at [upsert(...)] *)
| AwaitSignUp
| AwaitSignIn
| AwaitSignOut                          (* [signOut] at [supabase.auth.signOut()] *)
| AwaitSignOutDelay                     (* [signOut] at the 100 ms timer *)
| AwaitOAuth.

(** What a segment ends with: the next [await], or the settlement of the
    function's promise. *)
Inductive Outcome :=
| Suspend (t : Task)
| Done (c : Completion (option RemoteData)).

Inductive Phase := Fresh | Mounted | TornDown.

(** One [AuthProvider] instance.  [effect_dep] is the value of [loading]
    in the render whose effect ran last (the dependency array is
    [[loading]]); [subscription] is the registration returned by
    [onAuthStateChange] with the [loading] its handler closed over. *)
Record Provider := mkProvider {
  phase : Phase;
  user : option User;
  loading : bool;
  effect_dep : bool;
  subscription : option (nat * bool);
  next_sub : nat;
  tasks : gmap nat Task;
  next_task : nat;
  log : list Entry;
  browser : Browser
}.

#[global] Instance Phase_eq_dec : EqDecision Phase.
Proof. solve_decision. Defined.

(** [useState<User | null>(null)] and [useState(true)] before the first
    render. *)
Definition fresh (b : Browser) : Provider :=
  mkProvider Fresh None true true None 0 ∅ 0 [] b.

(** React ignores state setters of a component that is not mounted. *)
Definition setUser (u : option User) (st : Provider) : Provider :=
  match phase st with
  | Mounted =>
      mkProvider (phase st) u (loading st) (effect_dep st) (subscription st)
        (next_sub st) (tasks st) (next_task st) (log st) (browser st)
  | _ => st
  end.

Definition setLoading (l : bool) (st : Provider) : Provider :=
  match phase st with
  | Mounted =>
      mkProvider (phase st) (user st) l (effect_dep st) (subscription st)
        (next_sub st) (tasks st) (next_task st) (log st) (browser st)
  | _ => st
  end.

Definition record (e : Entry) (st : Provider) : Provider :=
  mkProvider (phase st) (user st) (loading st) (effect_dep st) (subscription st)
    (next_sub st) (tasks st) (next_task st) (e :: log st) (browser st).

Definition on_browser (f : Browser → Browser) (st : Provider) : Provider :=
  mkProvider (phase st) (user st) (loading st) (effect_dep st) (subscription st)
    (next_sub st) (tasks st) (next_task st) (log st) (f (browser st)).

Definition with_phase (p : Phase) (st : Provider) : Provider :=
  mkProvider p (user st) (loading st) (effect_dep st) (subscription st)
    (next_sub st) (tasks st) (next_task st) (log st) (browser st).

Definition with_tasks (m : gmap nat Task) (n : nat) (st : Provider) : Provider :=
  mkProvider (phase st) (user st) (loading st) (effect_dep st) (subscription st)
    (next_sub st) m n (log st) (browser st).

Definition with_subscription (s : option (nat * bool)) (n : nat) (dep : bool)
    (st : Provider) : Provider :=
  mkProvider (phase st) (user st) (loading st) dep s n
    (tasks st) (next_task st) (log st) (browser st).

Definition console_error (label : string) : Provider → Provider :=
  record (ConsoleError label).
Definition console_log (label : string) : Provider → Provider :=
  record (ConsoleLog label).
Definition call (c : RemoteCall) : Provider → Provider := record (Called c).

(** ** The session mirror *)

(** [initializeAuth] up to [await supabase.auth.getSession()]. *)
Definition initializeAuth (st : Provider) : Provider * Outcome :=
  (call GetSession st, Suspend AwaitGetSession).

(** The [finally { setLoading(false) }] of [initializeAuth]. *)
Definition initializeAuth_finally (st : Provider) : Provider * Outcome :=
  (setLoading false st, Done (Fulfilled None)).

(** [initializeAuth] from the result of [getSession()] to
    [await supabase.auth.getUser()] or to its end. *)
Definition initializeAuth_session (r : Reply) (st : Provider) : Provider * Outcome :=
  match r with
  | Resolved _ (Some _) =>
      let st := console_error "Session validation error:" st in
      let st := setUser None st in
      let st := setLoading false st in
      initializeAuth_finally st
  | Resolved data None =>
      match data_session data with
      | Some session => (call GetUser st, Suspend (AwaitGetUser session))
      | None => initializeAuth_finally (setUser None st)
      end
  | Raised _ =>
      let st := console_error "Auth initialization error:" st in
      initializeAuth_finally (setUser None st)
  end.

(** [initializeAuth] from the result of [getUser()] to its end. *)
Definition initializeAuth_user (session : Session) (r : Reply) (st : Provider)
    : Provider * Outcome :=
  match r with
  | Resolved _ (Some _) =>
      let st := console_error "Session invalid:" st in
      initializeAuth_finally (setUser None st)
  | Resolved _ None =>
      initializeAuth_finally (setUser (Some (user_of_session session)) st)
  | Raised _ =>
      let st := console_error "Auth initialization error:" st in
      initializeAuth_finally (setUser None st)
  end.

(** The tail of the subscription handler: [if (loading) setLoading(false)],
    where [loading] is the value the closure captured. *)
Definition handler_tail (closure_loading : bool) (st : Provider) : Provider * Outcome :=
  ((if closure_loading then setLoading false st else st), Done (Fulfilled None)).

(** Truthiness of [session?.user]: a [Session] always embeds a user, so
    the expression is falsy exactly for a null session. *)
Definition has_user (session : option Session) : bool :=
  match session with
  | Some _ => true
  | None => false
  end.

(** The handler given to [onAuthStateChange], up to [await ...upsert(...)]
    or to its end. *)
Definition handler (closure_loading : bool) (event : string) (session : option Session)
    (st : Provider) : Provider * Outcome :=
  let st := console_log "Auth state change:" st in
  if String.eqb event "SIGNED_OUT" || negb (has_user session) then
    handler_tail closure_loading (setUser None st)
  else
    match session with
    | Some s =>
        let st := setUser (Some (user_of_session s)) st in
        let st := call (Upsert (remote_id (session_user s))
                               (remote_email (session_user s))
                               (iso_string (clock (browser st)))) st in
        (st, Suspend (AwaitUpsert closure_loading))
    | None => handler_tail closure_loading st
    end.

(** The handler after the upsert settled: a thrown exception is logged,
    a resolved result is dropped unread. *)
Definition handler_upserted (closure_loading : bool) (r : Reply) (st : Provider)
    : Provider * Outcome :=
  match r with
  | Raised _ => handler_tail closure_loading (console_error "Error upserting user:" st)
  | Resolved _ _ => handler_tail closure_loading st
  end.

(** ** The credential operations facade *)

(** [signUp] up to [await supabase.auth.signUp(...)]. *)
Definition signUp (email password username : string) (st : Provider)
    : Provider * Outcome :=
  let st := setLoading true st in
  let st := call (SignUp email password username (origin (browser st) +:+ "/")) st in
  (st, Suspend AwaitSignUp).

(** [signUp] from the remote result to its end; the [catch] re-throws
    what it caught and the [finally] clears [loading]. *)
Definition signUp_result (r : Reply) (st : Provider) : Provider * Outcome :=
  match r with
  | Resolved _ (Some error) =>
      let st := console_error "Signup error:" st in
      (setLoading false st,
       Done (Rejected (NewError (signUp_error_message (message error)))))
  | Resolved data None => (setLoading false st, Done (Fulfilled (Some data)))
  | Raised e => (setLoading false st, Done (Rejected (Foreign e)))
  end.

(** [signIn] up to [await supabase.auth.signInWithPassword(...)]. *)
Definition signIn (email password : string) (st : Provider) : Provider * Outcome :=
  let st := setLoading true st in
  let st := call (SignInWithPassword email password) st in
  (st, Suspend AwaitSignIn).

(** [signIn] from the remote result to its end. *)
Definition signIn_result (r : Reply) (st : Provider) : Provider * Outcome :=
  match r with
  | Resolved _ (Some error) =>
      let st := console_error "Login error:" st in
      (setLoading false st,
       Done (Rejected (NewError (signIn_error_message (message error)))))
  | Resolved data None => (setLoading false st, Done (Fulfilled (Some data)))
  | Raised e => (setLoading false st, Done (Rejected (Foreign e)))
  end.

(** The assignment made for one piece [c] of [document.cookie]:
    [c.replace(/^ +/, "").replace(/=.*/, "=;expires=" +
     new Date().toUTCString() + ";path=/")]. *)
Definition expiring_assignment (now : Date) (c : string) : string :=
  Js.replace_eq_rest (Js.strip_leading_spaces c)
    ("=;expires=" +:+ utc_string now +:+ ";path=/").

(** [document.cookie.split(";").forEach((c) => { document.cookie = ... })]:
    the pieces are those of the string read before the loop. *)
Definition clear_cookies (b : Browser) : Browser :=
  foldl (fun b c => Dom.set_document_cookie (expiring_assignment (clock b) c) b)
        b (Js.split ";" (Dom.document_cookie b)).

(** [signOut] up to [await supabase.auth.signOut()]. *)
Definition signOut (st : Provider) : Provider * Outcome :=
  let st := setLoading true st in
  let st := on_browser Dom.localStorage_clear st in
  let st := on_browser Dom.sessionStorage_clear st in
  let st := on_browser clear_cookies st in
  let st := call SignOut st in
  (st, Suspend AwaitSignOut).

(** [signOut] from the remote result to the 100 ms timer, or through
    the [catch] block when the remote call threw. *)
Definition signOut_result (r : Reply) (st : Provider) : Provider * Outcome :=
  match r with
  | Resolved _ error =>
      let st := match error with
                | Some _ => console_error "Signout error:" st
                | None => st
                end in
      let st := setUser None st in
      (record (TimerSet 100) st, Suspend AwaitSignOutDelay)
  | Raised _ =>
      let st := console_error "Signout error:" st in
      let st := setUser None st in
      let st := on_browser Dom.localStorage_clear st in
      let st := on_browser Dom.sessionStorage_clear st in
      let st := on_browser (Dom.location_replace "/") st in
      (setLoading false st, Done (Fulfilled None))
  end.

(** [signOut] after the timer: the redirect and the [finally]. *)
Definition signOut_delay (st : Provider) : Provider * Outcome :=
  let st := on_browser (Dom.location_replace "/") st in
  (setLoading false st, Done (Fulfilled None)).

(** [signInWithGoogle] up to [await supabase.auth.signInWithOAuth(...)]. *)
Definition signInWithGoogle (st : Provider) : Provider * Outcome :=
  (call (SignInWithOAuth "google" (origin (browser st) +:+ "/")) st, Suspend AwaitOAuth).

Definition signInWithGoogle_result (r : Reply) (st : Provider) : Provider * Outcome :=
  match r with
  | Resolved _ (Some error) =>
      let st := console_error "Google OAuth error:" st in
      (st, Done (Rejected (NewError (Js.or_else (message error) "Google sign-in failed"))))
  | Resolved data None => (st, Done (Fulfilled (Some data)))
  | Raised e => (st, Done (Rejected (Foreign e)))
  end.

(** ** React's effect and the event loop

    Modelled from React's behaviour: after the segment that changed
    state has run to its [await], the component re-renders; an effect
    whose dependency array changed runs its cleanup and then its body. *)

(** Parks the continuation of a segment, or reports the settlement of the
    function's promise. *)
Definition schedule (op : Operation) (r : Provider * Outcome) : Provider :=
  match r with
  | (st, Suspend t) =>
      with_tasks (<[next_task st := t]> (tasks st)) (S (next_task st)) st
  | (st, Done c) => record (Finished op c) st
  end.

(** The body of the effect: [initializeAuth()], then
    [supabase.auth.onAuthStateChange(handler)] with a handler that closes
    over the [loading] of this render. *)
Definition useEffect_body (st : Provider) : Provider :=
  let st := schedule OpInitializeAuth (initializeAuth st) in
  let st := record (Subscribed (next_sub st)) st in
  with_subscription (Some (next_sub st, loading st)) (S (next_sub st)) (loading st) st.

(** The cleanup returned by the effect: [subscription.unsubscribe()]. *)
Definition useEffect_cleanup (st : Provider) : Provider :=
  match subscription st with
  | Some (sub, _) =>
      with_subscription None (next_sub st) (effect_dep st) (record (Unsubscribed sub) st)
  | None => st
  end.

(** Re-render after a segment: the effect re-runs when [loading] differs
    from the value it had when the effect last ran. *)
Definition commit (st : Provider) : Provider :=
  match phase st with
  | Mounted =>
      if Bool.eqb (loading st) (effect_dep st) then st
      else useEffect_body (useEffect_cleanup st)
  | _ => st
  end.

Inductive Event :=
| Mount
| Unmount
| Notify (event : string) (session : option Session)
| Settle (task : nat) (reply : Reply)
| CallSignUp (email password username : string)
| CallSignIn (email password : string)
| CallSignOut
| CallSignInWithGoogle
| ClockTick (now : Date).

(** Resuming a parked continuation with the value its [await] yields. *)
Definition resume (t : Task) (r : Reply) (st : Provider) : Provider :=
  match t with
  | AwaitGetSession => schedule OpInitializeAuth (initializeAuth_session r st)
  | AwaitGetUser s => schedule OpInitializeAuth (initializeAuth_user s r st)
  | AwaitUpsert cl => schedule OpHandler (handler_upserted cl r st)
  | AwaitSignUp => schedule OpSignUp (signUp_result r st)
  | AwaitSignIn => schedule OpSignIn (signIn_result r st)
  | AwaitSignOut => schedule OpSignOut (signOut_result r st)
  | AwaitSignOutDelay => schedule OpSignOut (signOut_delay st)
  | AwaitOAuth => schedule OpSignInWithGoogle (signInWithGoogle_result r st)
  end.

Definition step (st : Provider) (e : Event) : Provider :=
  match e with
  | Mount =>
      match phase st with
      | Fresh => useEffect_body (with_phase Mounted st)
      | _ => st
      end
  | Unmount =>
      match phase st with
      | Mounted => with_phase TornDown (useEffect_cleanup st)
      | _ => st
      end
  | Notify event session =>
      match subscription st with
      | Some (_, closure_loading) =>
          commit (schedule OpHandler (handler closure_loading event session st))
      | None => st
      end
  | Settle i r =>
      match tasks st !! i with
      | Some t => commit (resume t r (with_tasks (delete i (tasks st)) (next_task st) st))
      | None => st
      end
  | CallSignUp email password username =>
      commit (schedule OpSignUp (signUp email password username st))
  | CallSignIn email password => commit (schedule OpSignIn (signIn email password st))
  | CallSignOut => commit (schedule OpSignOut (signOut st))
  | CallSignInWithGoogle => commit (schedule OpSignInWithGoogle (signInWithGoogle st))
  | ClockTick now => on_browser (with_clock now) st
  end.

Definition run (st : Provider) (events : list Event) : Provider :=
  foldl step st events.

(** ** The [useAuth] hook *)

(** The value an [AuthProvider] hands to its subtree; the four
    operations it also carries are the functions above. *)
Record AuthContextType := mkAuthContext {
  context_user : option User;
  context_loading : bool
}.

Definition context_value (st : Provider) : AuthContextType :=
  mkAuthContext (user st) (loading st).

(** [useContext(AuthContext)]: the value of the nearest enclosing
    provider (innermost first), or the default [undefined]. *)
Definition useContext (enclosing : list Provider) : option AuthContextType :=
  context_value <$> head enclosing.

Definition useAuth (enclosing : list Provider) : Completion AuthContextType :=
  match useContext enclosing with
  | None => Rejected (NewError "useAuth must be used within an AuthProvider")
  | Some context => Fulfilled context
  end.

(** * Properties *)

(** ** Substring tests *)

Section Substrings.


Lemma app_cons (x : ascii) (a b : string) : String x a +:+ b = String x (a +:+ b).
Proof. reflexivity. Qed.


Lemma startsWith_prefix (s p : string) :
  Js.startsWith s p = true ↔ ∃ post, s = p +:+ post.
Proof.
  revert p; induction s as [|a s IH]; intros [|b p]; simpl.
  - split; [by exists EmptyString | done].
  - split; [done | by intros [post ?]].
  - split; [by exists (String a s) | done].
  - destruct (Ascii.eqb_spec a b) as [->|Hne].
    + rewrite IH. split; intros [post Hp]; exists post; rewrite app_cons in *; congruence.
    + split; [done | intros [post Hp]; rewrite app_cons in Hp; congruence].
Qed.

Lemma includes_nil (needle : string) :
  Js.includes "" needle = Js.startsWith "" needle || false.
Proof. reflexivity. Qed.

Lemma includes_cons (a : ascii) (s needle : string) :
  Js.includes (String a s) needle
  = Js.startsWith (String a s) needle || Js.includes s needle.
Proof. reflexivity. Qed.

(** [includes] is the substring relation. *)
Lemma includes_substring (s needle : string) :
  Js.includes s needle = true ↔ ∃ pre post, s = pre +:+ needle +:+ post.
Proof.
  induction s as [|a s IH].
  - rewrite includes_nil, orb_false_r, startsWith_prefix. split.
    + intros [post H]. by exists EmptyString, post.
    + intros [[|x pre] [post H]]; [by exists post | done].
  - rewrite includes_cons, orb_true_iff, startsWith_prefix, IH. split.
    + intros [[post H] | (pre & post & ->)].
      * by exists EmptyString, post.
      * by exists (String a pre), post.
    + intros [[|x pre] [post H]].
      * left. by exists post.
      * right. rewrite app_cons in H. exists pre, post. congruence.
Qed.

End Substrings.

(** ** Reading the log *)

Fixpoint count (p : Entry → bool) (l : list Entry) : nat :=
  match l with
  | [] => 0
  | e :: l' => (if p e then 1 else 0) + count p l'
  end.

Definition is_upsert (e : Entry) : bool :=
  match e with
  | Called (Upsert _ _ _) => true
  | _ => false
  end.

Definition is_subscribe (e : Entry) : bool :=
  match e with
  | Subscribed _ => true
  | _ => false
  end.

Definition is_unsubscribe (e : Entry) : bool :=
  match e with
  | Unsubscribed _ => true
  | _ => false
  end.

Definition is_rejection (e : Entry) : bool :=
  match e with
  | Finished _ (Rejected _) => true
  | _ => false
  end.

(** A remote result that reports a failure: an [error] member, or a
    thrown exception. *)
Definition failed (r : Reply) : bool :=
  match r with
  | Resolved _ (Some _) => true
  | Resolved _ None => false
  | Raised _ => true
  end.

(** The substring relation the facade tests with [includes]. *)
Definition contains (s needle : string) : Prop :=
  ∃ pre post, s = pre +:+ needle +:+ post.

(** ** Sample inputs *)

Module Sample.

Definition now : Date :=
  mkDate "Tue, 03 Nov 2026 05:53:00 GMT" "2026-11-03T05:53:00.000Z".

(** A host-only, unpartitioned cookie of the site, readable by
    scripts. *)
Definition cookie (name value path : string) : Cookie :=
  mkCookie name value "inflow.example" true path false false false.

Definition browser : Browser :=
  mkBrowser {["sb-auth-token" := "eyJ"]} {["draft" := "1"]}
    [cookie "theme" "dark" "/";
     mkCookie "sb" "a=b" "inflow.example" true "/" true false false]
    ["/login"; "/"] "https://inflow.example" now.

Definition session : Session :=
  mkSession "token-A" (mkRemoteUser "user-a" (Some "a@example.com") (Some "ada")).

Definition no_session : Reply := Resolved (mkRemoteData None None) None.

Definition signed_in : RemoteData :=
  mkRemoteData (Some session) (Some (session_user session)).

(** A provider that was mounted and whose first session check found no
    session. *)
Definition settled : Provider := run (fresh browser) [Mount; Settle 0 no_session].



(** A store with cookies under the path ["/"] that the loop of [signOut]
    cannot expire: one set for the whole domain, one that scripts cannot
    read, one with a name prefix, one whose value holds U+2028; and one
    that it can. *)
Definition portal_browser : Browser :=
  mkBrowser ∅ ∅
    [mkCookie "sid" "1" "inflow.example" false "/" false false false;
     mkCookie "refresh" "r1" "inflow.example" true "/" true true false;
     mkCookie "__Host-csrf" "t" "inflow.example" true "/" true false false;
     cookie "note" (String "a" (String "226" (String "128" (String "168" "b")))) "/";
     cookie "theme" "dark" "/"]
    ["/"] "https://inflow.example" now.

Definition portal : Provider := run (fresh portal_browser) [Mount; Settle 0 no_session].

(** Session A, then null, with the upsert of A settling afterwards. *)
Definition session_then_null : list Event :=
  [Notify "SIGNED_IN" (Some session);
   Notify "SIGNED_OUT" None;
   Settle 2 (Raised (mkAuthError "Failed to fetch"))].

(** The same with the upsert settling in between. *)
Definition session_upserted_then_null : list Event :=
  [Notify "SIGNED_IN" (Some session);
   Settle 2 no_session;
   Notify "SIGNED_OUT" None].

Definition null_then_session : list Event :=
  [Notify "SIGNED_OUT" None; Notify "TOKEN_REFRESHED" (Some session)].

End Sample.

(** ** Frame lemmas *)

Ltac open_state st :=
  destruct st as [?ph ?u ?l ?dep ?sub ?ns ?ts ?nt ?lg ?b];
  cbn [phase user loading effect_dep subscription next_sub tasks next_task log
       browser] in *;
  subst.

(** Evaluates the model on a state whose fields are in view; the maps,
    the strings and the browser operations stay folded. *)
Ltac reduce_model :=
  cbv [step resume commit useEffect_body useEffect_cleanup schedule
       handler handler_upserted handler_tail
       initializeAuth initializeAuth_session initializeAuth_user initializeAuth_finally
       signUp signUp_result signIn signIn_result
       signOut signOut_result signOut_delay
       signInWithGoogle signInWithGoogle_result
       setUser setLoading console_error console_log call record
       on_browser with_phase with_tasks with_subscription
       phase user loading effect_dep subscription next_sub tasks next_task log
       browser fst snd Bool.eqb].

Ltac split_state st :=
  open_state st;
  repeat match goal with
         | x : Phase |- _ => destruct x
         | x : bool |- _ => destruct x
         | x : option (nat * bool) |- _ => destruct x as [[? ?]|]
         end.

Lemma commit_user (st : Provider) : user (commit st) = user st.
Proof. by split_state st. Qed.

Lemma commit_loading (st : Provider) : loading (commit st) = loading st.
Proof. by split_state st. Qed.

Lemma commit_browser (st : Provider) : browser (commit st) = browser st.
Proof. by split_state st. Qed.

Lemma commit_phase (st : Provider) : phase (commit st) = phase st.
Proof. by split_state st. Qed.

Lemma schedule_user (op : Operation) (r : Provider * Outcome) :
  user (schedule op r) = user (fst r).
Proof. by destruct r as [st []]. Qed.

Lemma schedule_loading (op : Operation) (r : Provider * Outcome) :
  loading (schedule op r) = loading (fst r).
Proof. by destruct r as [st []]. Qed.

Lemma schedule_browser (op : Operation) (r : Provider * Outcome) :
  browser (schedule op r) = browser (fst r).
Proof. by destruct r as [st []]. Qed.

Lemma schedule_phase (op : Operation) (r : Provider * Outcome) :
  phase (schedule op r) = phase (fst r).
Proof. by destruct r as [st []]. Qed.

(** ** The hook *)

(** C10: outside every [AuthProvider] the context is [undefined] and
    [useAuth] throws an error whose message is "useAuth must be used
    within an AuthProvider"; inside a provider it does not throw and
    returns the value of the nearest enclosing provider. *)
Theorem useAuth_outside_throws_inside_returns :
  useContext [] = None
  ∧ useAuth [] = Rejected (NewError "useAuth must be used within an AuthProvider")
  ∧ (∀ (p : Provider) (outer : list Provider),
       useContext (p :: outer) = Some (context_value p)
       ∧ useAuth (p :: outer) = Fulfilled (context_value p)).
Proof. by repeat split. Qed.

(** ** Error classification *)

Lemma includes_false (s needle : string) :
  ¬ contains s needle → Js.includes s needle = false.
Proof.
  intros H. destruct (Js.includes s needle) eqn:E; [| done].
  by apply includes_substring in E.
Qed.

Lemma includes_true (s needle : string) :
  contains s needle → Js.includes s needle = true.
Proof. apply includes_substring. Qed.

(** A remote message that matches none of the patterns of [signIn]. *)
Definition signIn_unmatched (msg : string) : Prop :=
  ¬ contains msg "Invalid login credentials"
  ∧ ¬ contains msg "Email not confirmed"
  ∧ ¬ contains msg "Too many requests".

Definition signUp_unmatched (msg : string) : Prop :=
  ¬ contains msg "already registered"
  ∧ ¬ contains msg "Invalid email"
  ∧ ¬ contains msg "Password".

(** C3, as the code has it: a remote error whose message contains
    "Invalid login credentials" makes [signIn] reject with a new error
    carrying exactly the invalid-credentials message, which is never the
    raw remote message; one whose message contains "already registered"
    makes [signUp] reject with exactly the already-registered message; a
    message that matches no pattern is re-thrown with its own text when
    that text is not empty, and with the operation's fixed fallback text
    when it is empty. *)
Theorem remote_errors_are_classified (st : Provider) (data : RemoteData) (msg : string) :
  (contains msg "Invalid login credentials" →
     snd (signIn_result (Resolved data (Some (mkAuthError msg))) st)
     = Done (Rejected (NewError
         "Invalid email or password. Please check your credentials and try again."))
     ∧ msg ≠ "Invalid email or password. Please check your credentials and try again.")
  ∧ (contains msg "already registered" →
     snd (signUp_result (Resolved data (Some (mkAuthError msg))) st)
     = Done (Rejected (NewError
         "An account with this email already exists. Please sign in instead.")))
  ∧ (signIn_unmatched msg →
     snd (signIn_result (Resolved data (Some (mkAuthError msg))) st)
     = Done (Rejected (NewError
         (match msg with
          | EmptyString => "Sign in failed. Please try again."
          | String _ _ => msg
          end))))
  ∧ (signUp_unmatched msg →
     snd (signUp_result (Resolved data (Some (mkAuthError msg))) st)
     = Done (Rejected (NewError
         (match msg with
          | EmptyString => "Account creation failed. Please try again."
          | String _ _ => msg
          end)))).
Proof.
  unfold signIn_result, signUp_result, signIn_error_message, signUp_error_message.
  cbn [snd message].
  split; [| split; [| split]].
  - intros H. split.
    + by rewrite (includes_true _ _ H).
    + intros ->. apply includes_true in H. by vm_compute in H.
  - intros H. by rewrite (includes_true _ _ H).
  - intros (H1 & H2 & H3).
    rewrite (includes_false _ _ H1), (includes_false _ _ H2), (includes_false _ _ H3).
    by destruct msg.
  - intros (H1 & H2 & H3).
    rewrite (includes_false _ _ H1), (includes_false _ _ H2), (includes_false _ _ H3).
    by destruct msg.
Qed.

Lemma not_contains_by_includes (s needle : string) :
  Js.includes s needle = false → ¬ contains s needle.
Proof. intros E H. apply includes_true in H. congruence. Qed.

Lemma remote_errors_are_classified_witness :
  (contains "AuthApiError: Invalid login credentials" "Invalid login credentials"
   ∧ snd (signIn_result
            (Resolved Sample.signed_in
               (Some (mkAuthError "AuthApiError: Invalid login credentials")))
            Sample.settled)
     = Done (Rejected (NewError
         "Invalid email or password. Please check your credentials and try again.")))
  ∧ (contains "User already registered" "already registered"
     ∧ snd (signUp_result
              (Resolved Sample.signed_in (Some (mkAuthError "User already registered")))
              Sample.settled)
       = Done (Rejected (NewError
           "An account with this email already exists. Please sign in instead.")))
  ∧ (signIn_unmatched "Failed to fetch"
     ∧ snd (signIn_result
              (Resolved Sample.signed_in (Some (mkAuthError "Failed to fetch")))
              Sample.settled)
       = Done (Rejected (NewError "Failed to fetch")))
  ∧ (signUp_unmatched "Failed to fetch"
     ∧ snd (signUp_result
              (Resolved Sample.signed_in (Some (mkAuthError "Failed to fetch")))
              Sample.settled)
       = Done (Rejected (NewError "Failed to fetch"))).
Proof.
  assert (H1 : contains "AuthApiError: Invalid login credentials"
                 "Invalid login credentials") by (by exists "AuthApiError: ", "").
  assert (H2 : contains "User already registered" "already registered")
    by (by exists "User ", "").
  assert (H3 : signIn_unmatched "Failed to fetch")
    by (repeat split; apply not_contains_by_includes; vm_compute; reflexivity).
  assert (H4 : signUp_unmatched "Failed to fetch")
    by (repeat split; apply not_contains_by_includes; vm_compute; reflexivity).
  destruct (remote_errors_are_classified Sample.settled Sample.signed_in
              "AuthApiError: Invalid login credentials") as ([C1 _]%(λ f, f H1) & _).
  destruct (remote_errors_are_classified Sample.settled Sample.signed_in
              "User already registered") as (_ & C2%(λ f, f H2) & _).
  destruct (remote_errors_are_classified Sample.settled Sample.signed_in
              "Failed to fetch") as (_ & _ & C3%(λ f, f H3) & C4%(λ f, f H4)).
  exact (conj (conj H1 C1) (conj (conj H2 C2) (conj (conj H3 C3) (conj H4 C4)))).
Defined.

(** The claim's last clause fails for an empty remote message: it
    matches no pattern, and neither operation re-throws its text. *)
Lemma empty_message_is_not_carried :
  signIn_unmatched "" ∧ signUp_unmatched ""
  ∧ snd (signIn_result (Resolved Sample.signed_in (Some (mkAuthError ""))) Sample.settled)
    ≠ Done (Rejected (NewError ""))
  ∧ snd (signUp_result (Resolved Sample.signed_in (Some (mkAuthError ""))) Sample.settled)
    ≠ Done (Rejected (NewError "")).
Proof.
  repeat split; try (apply not_contains_by_includes; vm_compute; reflexivity);
    vm_compute; discriminate.
Qed.

(** ** What a step adds to the log *)

(** The entries a step added to the log. *)
Definition added (st st' : Provider) (entries : list Entry) : Prop :=
  log st' = (entries ++ log st)%list.

Ltac close_added :=
  split; [reflexivity | split; [set_solver | reflexivity]].

Ltac show_added :=
  first [ eexists [_]; close_added | eexists [_; _]; close_added
        | eexists [_; _; _]; close_added | eexists [_; _; _; _]; close_added
        | eexists [_; _; _; _; _]; close_added
        | eexists [_; _; _; _; _; _]; close_added
        | eexists [_; _; _; _; _; _; _]; close_added ].

(** ** The initial session check *)

(** C9: when the [getSession()] call of [initializeAuth] reports an
    error or throws, the step that resumes [initializeAuth] sets the user
    to absent and [loading] to false, and [initializeAuth] fulfils its
    promise: nothing is thrown, and the step logs no rejection. *)
Theorem failed_session_fetch_is_signed_out (st : Provider) (i : nat) (r : Reply) :
  phase st = Mounted →
  tasks st !! i = Some AwaitGetSession →
  failed r = true →
  user (step st (Settle i r)) = None
  ∧ loading (step st (Settle i r)) = false
  ∧ snd (initializeAuth_session r st) = Done (Fulfilled None)
  ∧ ∃ entries, added st (step st (Settle i r)) entries
      ∧ Finished OpInitializeAuth (Fulfilled None) ∈ entries
      ∧ count is_rejection entries = 0.
Proof.
  intros Hph Hi Hr. cbn [step]. rewrite Hi. cbn [resume].
  destruct r as [data [e|] | e]; try done.
  - split; [| split; [| split]].
    + rewrite commit_user, schedule_user. by split_state st.
    + rewrite commit_loading, schedule_loading. by split_state st.
    + done.
    + unfold added. split_state st; reduce_model; show_added.
  - split; [| split; [| split]].
    + rewrite commit_user, schedule_user. by split_state st.
    + rewrite commit_loading, schedule_loading. by split_state st.
    + done.
    + unfold added. split_state st; reduce_model; show_added.
Qed.

Lemma failed_session_fetch_is_signed_out_witness :
  phase (step (fresh Sample.browser) Mount) = Mounted
  ∧ tasks (step (fresh Sample.browser) Mount) !! 0 = Some AwaitGetSession
  ∧ failed (Raised (mkAuthError "Failed to fetch")) = true
  ∧ user (step (step (fresh Sample.browser) Mount)
               (Settle 0 (Raised (mkAuthError "Failed to fetch")))) = None
  ∧ loading (step (step (fresh Sample.browser) Mount)
                  (Settle 0 (Raised (mkAuthError "Failed to fetch")))) = false.
Proof.
  assert (H1 : phase (step (fresh Sample.browser) Mount) = Mounted)
    by (vm_compute; reflexivity).
  assert (H2 : tasks (step (fresh Sample.browser) Mount) !! 0 = Some AwaitGetSession)
    by (vm_compute; reflexivity).
  assert (H3 : failed (Raised (mkAuthError "Failed to fetch")) = true) by reflexivity.
  destruct (failed_session_fetch_is_signed_out
              (step (fresh Sample.browser) Mount) 0
              (Raised (mkAuthError "Failed to fetch")) H1 H2 H3) as (Hu & Hl & _).
  exact (conj H1 (conj H2 (conj H3 (conj Hu Hl)))).
Defined.

(** ** The subscription handler *)

Lemma step_notify (st : Provider) (sub : nat) (cl : bool) (event : string)
    (session : option Session) :
  subscription st = Some (sub, cl) →
  step st (Notify event session)
  = commit (schedule OpHandler (handler cl event session st)).
Proof. intros H. cbn [step]. by rewrite H. Qed.

Lemma step_settle (st : Provider) (i : nat) (t : Task) (r : Reply) :
  tasks st !! i = Some t →
  step st (Settle i r)
  = commit (resume t r (with_tasks (delete i (tasks st)) (next_task st) st)).
Proof. intros H. cbn [step]. by rewrite H. Qed.

(** A notification that is not a sign-out and carries a session. *)
Lemma handler_session (cl : bool) (event : string) (s : Session) (st : Provider) :
  event ≠ "SIGNED_OUT" →
  handler cl event (Some s) st
  = (call (Upsert (remote_id (session_user s)) (remote_email (session_user s))
                  (iso_string (clock (browser st))))
       (setUser (Some (user_of_session s)) (console_log "Auth state change:" st)),
     Suspend (AwaitUpsert cl)).
Proof.
  intros H. unfold handler.
  destruct (String.eqb_spec event "SIGNED_OUT") as [|_]; [done |].
  cbn [has_user negb orb]. by split_state st.
Qed.

(** A sign-out notification, or one without a session. *)
Lemma handler_cleared (cl : bool) (event : string) (session : option Session)
    (st : Provider) :
  event = "SIGNED_OUT" ∨ session = None →
  handler cl event session st
  = handler_tail cl (setUser None (console_log "Auth state change:" st)).
Proof.
  intros H. unfold handler.
  destruct (String.eqb_spec event "SIGNED_OUT") as [|Hne]; [done |].
  destruct H as [? | ->]; done.
Qed.

Lemma parked_task (op : Operation) (st : Provider) (t : Task) :
  tasks (commit (schedule op (st, Suspend t))) !! next_task st = Some t.
Proof.
  split_state st; reduce_model;
    rewrite ?lookup_insert_ne by lia; apply lookup_insert_eq.
Qed.

Lemma parked_task_at (op : Operation) (st : Provider) (t : Task) (n : nat) :
  next_task st = n →
  tasks (commit (schedule op (st, Suspend t))) !! n = Some t.
Proof. intros <-. apply parked_task. Qed.

Lemma settle_upsert_user (st : Provider) (i : nat) (cl : bool) (r : Reply) :
  tasks st !! i = Some (AwaitUpsert cl) →
  user (step st (Settle i r)) = user st.
Proof.
  intros H. rewrite (step_settle _ _ _ _ H). cbn [resume].
  rewrite commit_user, schedule_user.
  destruct r, cl; by split_state st.
Qed.

Lemma settle_upsert_calls (st : Provider) (i : nat) (cl : bool) (r : Reply) :
  tasks st !! i = Some (AwaitUpsert cl) →
  count is_upsert (log (step st (Settle i r))) = count is_upsert (log st).
Proof.
  intros H. rewrite (step_settle _ _ _ _ H). cbn [resume]. clear H.
  destruct r as [? [?|] | ?], cl; split_state st; reflexivity.
Qed.

(** A notification with a session that is not a sign-out parks the
    handler at its upsert and leaves [loading] alone. *)
Lemma notify_parks_upsert (st : Provider) (sub : nat) (cl : bool)
    (event : string) (s : Session) :
  subscription st = Some (sub, cl) →
  event ≠ "SIGNED_OUT" →
  tasks (step st (Notify event (Some s))) !! next_task st = Some (AwaitUpsert cl)
  ∧ loading (step st (Notify event (Some s))) = loading st.
Proof.
  intros Hsub Hev.
  rewrite (step_notify _ _ _ _ _ Hsub), (handler_session _ _ _ _ Hev). split.
  - assert (next_task st = next_task
      (call (Upsert (remote_id (session_user s)) (remote_email (session_user s))
                    (iso_string (clock (browser st))))
         (setUser (Some (user_of_session s)) (console_log "Auth state change:" st))))
      as -> by (by split_state st).
    apply parked_task.
  - rewrite commit_loading, schedule_loading. clear Hsub. by split_state st.
Qed.

(** C5: a notification that carries a session and makes the handler
    upsert the user record (every event but the sign-out event does, and
    the sign-out event issues no upsert) sets the user to the projection
    of that session and parks the handler at the upsert.  When the upsert then fails, by an [error]
    member or by an exception, the resumed handler leaves the user as
    derived from the session, fulfils its promise instead of throwing,
    and issues no further upsert: the one request of the notification is
    the only one.  Whatever happened in between, resuming a handler
    parked at its upsert never changes the user. *)
Theorem upsert_failure_is_swallowed (st : Provider) (sub : nat) (cl : bool)
    (event : string) (s : Session) (r : Reply) :
  phase st = Mounted →
  subscription st = Some (sub, cl) →
  event ≠ "SIGNED_OUT" →
  failed r = true →
  tasks (step st (Notify event (Some s))) !! next_task st = Some (AwaitUpsert cl)
  ∧ user (step st (Notify event (Some s))) = Some (user_of_session s)
  ∧ user (step (step st (Notify event (Some s))) (Settle (next_task st) r))
    = Some (user_of_session s)
  ∧ snd (handler_upserted cl r (step st (Notify event (Some s)))) = Done (Fulfilled None)
  ∧ count is_upsert (log (step st (Notify event (Some s))))
    = S (count is_upsert (log st))
  ∧ count is_upsert (log (step (step st (Notify event (Some s))) (Settle (next_task st) r)))
    = S (count is_upsert (log st))
  ∧ count is_upsert (log (step st (Notify "SIGNED_OUT" (Some s))))
    = count is_upsert (log st)
  ∧ (∀ (st' : Provider) (j : nat) (cl' : bool),
       tasks st' !! j = Some (AwaitUpsert cl') →
       user (step st' (Settle j r)) = user st').
Proof.
  intros Hph Hsub Hev Hr.
  assert (Htask : tasks (step st (Notify event (Some s))) !! next_task st
                  = Some (AwaitUpsert cl)).
  { rewrite (step_notify _ _ _ _ _ Hsub), (handler_session _ _ _ _ Hev).
    assert (next_task st = next_task
      (call (Upsert (remote_id (session_user s)) (remote_email (session_user s))
                    (iso_string (clock (browser st))))
         (setUser (Some (user_of_session s)) (console_log "Auth state change:" st))))
      as -> by (by split_state st).
    apply parked_task. }
  assert (Huser : user (step st (Notify event (Some s))) = Some (user_of_session s)).
  { rewrite (step_notify _ _ _ _ _ Hsub), (handler_session _ _ _ _ Hev).
    rewrite commit_user, schedule_user. by split_state st. }
  assert (Hcalls : count is_upsert (log (step st (Notify event (Some s))))
                   = S (count is_upsert (log st))).
  { rewrite (step_notify _ _ _ _ _ Hsub), (handler_session _ _ _ _ Hev).
    clear Htask Huser. by split_state st. }
  split; [done |]. split; [done |].
  split; [by rewrite (settle_upsert_user _ _ _ _ Htask) |].
  split; [by destruct r |].
  split; [done |].
  split; [by rewrite (settle_upsert_calls _ _ _ _ Htask) |].
  split; [| intros st' j cl'; apply settle_upsert_user].
  rewrite (step_notify _ _ _ _ _ Hsub), handler_cleared by (by left).
  clear Htask Huser Hcalls. by split_state st.
Qed.

Lemma upsert_failure_is_swallowed_witness :
  phase Sample.settled = Mounted
  ∧ subscription Sample.settled = Some (1, false)
  ∧ "SIGNED_IN" ≠ "SIGNED_OUT"
  ∧ failed (Raised (mkAuthError "Failed to fetch")) = true
  ∧ user (step (step Sample.settled (Notify "SIGNED_IN" (Some Sample.session)))
               (Settle (next_task Sample.settled)
                  (Raised (mkAuthError "Failed to fetch"))))
    = Some (user_of_session Sample.session)
  ∧ count is_upsert
      (log (step (step Sample.settled (Notify "SIGNED_IN" (Some Sample.session)))
                 (Settle (next_task Sample.settled)
                    (Raised (mkAuthError "Failed to fetch")))))
    = S (count is_upsert (log Sample.settled)).
Proof.
  assert (H1 : phase Sample.settled = Mounted) by (vm_compute; reflexivity).
  assert (H2 : subscription Sample.settled = Some (1, false))
    by (vm_compute; reflexivity).
  assert (H3 : "SIGNED_IN" ≠ "SIGNED_OUT") by discriminate.
  assert (H4 : failed (Raised (mkAuthError "Failed to fetch")) = true) by reflexivity.
  destruct (upsert_failure_is_swallowed Sample.settled 1 false "SIGNED_IN"
              Sample.session (Raised (mkAuthError "Failed to fetch")) H1 H2 H3 H4)
    as (_ & _ & Hu & _ & _ & Hc & _ & _).
  exact (conj H1 (conj H2 (conj H3 (conj H4 (conj Hu Hc))))).
Defined.

(** ** The user mirrors the notifications *)

(** The most recent notification of a trace. *)
Fixpoint last_notification (events : list Event) : option (string * option Session) :=
  match events with
  | [] => None
  | e :: es =>
      match last_notification es with
      | Some n => Some n
      | None =>
          match e with
          | Notify event session => Some (event, session)
          | _ => None
          end
      end
  end.

(** Traces made of notifications and of settlements, in any order and
    with any result, of the upserts the handlers are parked at. *)
Fixpoint mirror_trace (st : Provider) (events : list Event) : bool :=
  match events with
  | [] => true
  | e :: es =>
      match e with
      | Notify _ _ => true
      | Settle i _ =>
          match tasks st !! i with
          | Some (AwaitUpsert _) => true
          | _ => false
          end
      | _ => false
      end && mirror_trace (step st e) es
  end.

(** What the handler makes of a notification. *)
Definition mirrored (event : string) (session : option Session) : option User :=
  if String.eqb event "SIGNED_OUT" then None else user_of_session <$> session.

Lemma notify_user (st : Provider) (event : string) (session : option Session) :
  phase st = Mounted →
  is_Some (subscription st) →
  user (step st (Notify event session)) = mirrored event session.
Proof.
  intros Hph [[sub cl] Hsub]. rewrite (step_notify _ _ _ _ _ Hsub).
  rewrite commit_user, schedule_user. unfold mirrored.
  destruct (String.eqb_spec event "SIGNED_OUT") as [->|Hne].
  - rewrite handler_cleared by (by left). by destruct cl; split_state st.
  - destruct session as [s|].
    + rewrite (handler_session _ _ _ _ Hne). by split_state st.
    + rewrite handler_cleared by (by right). by destruct cl; split_state st.
Qed.

(** While the provider is mounted it holds a subscription. *)
Definition subscribed (st : Provider) : Prop :=
  phase st = Mounted ∧ is_Some (subscription st).

Lemma commit_subscribed (st : Provider) : subscribed st → subscribed (commit st).
Proof.
  intros [Hph [[sub cl] Hsub]]. unfold subscribed.
  split_state st; simplify_eq; by eauto.
Qed.

Lemma schedule_subscribed (op : Operation) (st : Provider) (o : Outcome) :
  subscribed st → subscribed (schedule op (st, o)).
Proof. intros [Hph Hsub]. by destruct o. Qed.

Lemma notify_subscribed (st : Provider) (event : string) (session : option Session) :
  subscribed st → subscribed (step st (Notify event session)).
Proof.
  intros [Hph [[sub cl] Hsub]]. rewrite (step_notify _ _ _ _ _ Hsub).
  apply commit_subscribed.
  destruct (handler cl event session st) as [st' o] eqn:E.
  apply schedule_subscribed.
  replace st' with (fst (handler cl event session st)) by (by rewrite E). clear E.
  unfold subscribed, handler.
  destruct (String.eqb event "SIGNED_OUT"), session as [s|], cl;
    cbn [orb negb has_user]; split_state st; simplify_eq; by eauto.
Qed.

Lemma settle_upsert_subscribed (st : Provider) (i : nat) (cl : bool) (r : Reply) :
  tasks st !! i = Some (AwaitUpsert cl) →
  subscribed st → subscribed (step st (Settle i r)).
Proof.
  intros H [Hph [[sub cl'] Hsub]]. rewrite (step_settle _ _ _ _ H). cbn [resume].
  apply commit_subscribed. clear H.
  unfold subscribed. destruct r as [? [?|] | ?], cl; split_state st; simplify_eq; by eauto.
Qed.

Lemma mirror_trace_user (events : list Event) (st : Provider) :
  subscribed st →
  mirror_trace st events = true →
  user (run st events)
  = match last_notification events with
    | Some (event, session) => mirrored event session
    | None => user st
    end.
Proof.
  revert st. induction events as [|e es IH]; intros st Hsub Htr; [done |].
  cbn [mirror_trace] in Htr. apply andb_true_iff in Htr as [He Hes].
  cbn [run foldl last_notification]. fold (run (step st e) es).
  destruct e as [| |event session|i r| | | | |]; try done.
  - rewrite IH by (by auto using notify_subscribed).
    destruct (last_notification es) as [[]|]; [done |].
    destruct Hsub. by apply notify_user.
  - destruct (tasks st !! i) as [[]|] eqn:Hi; try done.
    rewrite IH by (by eauto using settle_upsert_subscribed).
    destruct (last_notification es) as [[]|]; [done |].
    by eapply settle_upsert_user.
Qed.

(** C1, as the code has it: over every sequence of notifications, with
    the upserts of their handlers settling at any time and with any
    result, the user is the projection of the session of the most recent
    notification unless that notification was the sign-out event or
    carried no session; so the user is present exactly when the most
    recent notification was not a sign-out event and carried a session. *)
Theorem user_mirrors_last_notification (st : Provider) (events : list Event)
    (event : string) (session : option Session) :
  phase st = Mounted →
  is_Some (subscription st) →
  mirror_trace st events = true →
  last_notification events = Some (event, session) →
  user (run st events) = mirrored event session
  ∧ (is_Some (user (run st events)) ↔ event ≠ "SIGNED_OUT" ∧ is_Some session).
Proof.
  intros Hph Hsub Htr Hlast.
  assert (user (run st events) = mirrored event session) as ->.
  { rewrite mirror_trace_user by done. by rewrite Hlast. }
  split; [done |]. unfold mirrored.
  destruct (String.eqb_spec event "SIGNED_OUT") as [->|Hne].
  - split; [by intros [] | by intros []].
  - destruct session; simpl; split; try done.
    by intros [_ []].
Qed.

Lemma user_mirrors_last_notification_witness :
  phase Sample.settled = Mounted
  ∧ is_Some (subscription Sample.settled)
  ∧ (mirror_trace Sample.settled Sample.session_then_null = true
     ∧ last_notification Sample.session_then_null = Some ("SIGNED_OUT", None)
     ∧ user (run Sample.settled Sample.session_then_null) = mirrored "SIGNED_OUT" None)
  ∧ (mirror_trace Sample.settled Sample.session_upserted_then_null = true
     ∧ last_notification Sample.session_upserted_then_null = Some ("SIGNED_OUT", None)
     ∧ user (run Sample.settled Sample.session_upserted_then_null)
       = mirrored "SIGNED_OUT" None)
  ∧ (mirror_trace Sample.settled Sample.null_then_session = true
     ∧ last_notification Sample.null_then_session
       = Some ("TOKEN_REFRESHED", Some Sample.session)
     ∧ user (run Sample.settled Sample.null_then_session)
       = mirrored "TOKEN_REFRESHED" (Some Sample.session)).
Proof.
  assert (H1 : phase Sample.settled = Mounted) by (vm_compute; reflexivity).
  assert (H2 : is_Some (subscription Sample.settled))
    by (exists (1, false); vm_compute; reflexivity).
  assert (A1 : mirror_trace Sample.settled Sample.session_then_null = true)
    by (vm_compute; reflexivity).
  assert (A2 : last_notification Sample.session_then_null = Some ("SIGNED_OUT", None))
    by reflexivity.
  assert (B1 : mirror_trace Sample.settled Sample.session_upserted_then_null = true)
    by (vm_compute; reflexivity).
  assert (B2 : last_notification Sample.session_upserted_then_null
               = Some ("SIGNED_OUT", None)) by reflexivity.
  assert (C1 : mirror_trace Sample.settled Sample.null_then_session = true)
    by (vm_compute; reflexivity).
  assert (C2 : last_notification Sample.null_then_session
               = Some ("TOKEN_REFRESHED", Some Sample.session)) by reflexivity.
  exact (conj H1 (conj H2
    (conj (conj A1 (conj A2
             (proj1 (user_mirrors_last_notification _ _ _ _ H1 H2 A1 A2))))
    (conj (conj B1 (conj B2
             (proj1 (user_mirrors_last_notification _ _ _ _ H1 H2 B1 B2))))
          (conj C1 (conj C2
             (proj1 (user_mirrors_last_notification _ _ _ _ H1 H2 C1 C2)))))))).
Defined.

(** The claim itself fails on a sign-out event that carries a session:
    the notification has a non-null session and the user is absent. *)
Lemma sign_out_event_with_session_clears_user :
  last_notification [Notify "SIGNED_OUT" (Some Sample.session)]
  = Some ("SIGNED_OUT", Some Sample.session)
  ∧ mirror_trace Sample.settled [Notify "SIGNED_OUT" (Some Sample.session)] = true
  ∧ ¬ (is_Some (user (run Sample.settled [Notify "SIGNED_OUT" (Some Sample.session)]))
       ↔ is_Some (Some Sample.session)).
Proof.
  split; [reflexivity |]. split; [reflexivity |].
  intros [_ H]. destruct H as [u Hu]; [by eexists |]. by vm_compute in Hu.
Qed.

(** ** The subscription registry *)

(** The identifiers registered and unregistered so far, newest first. *)
Fixpoint registrations (l : list Entry) : list nat :=
  match l with
  | [] => []
  | Subscribed n :: l' => n :: registrations l'
  | _ :: l' => registrations l'
  end.

Fixpoint removals (l : list Entry) : list nat :=
  match l with
  | [] => []
  | Unsubscribed n :: l' => n :: removals l'
  | _ :: l' => removals l'
  end.

(** The identifiers [n - 1, ..., 0]. *)
Fixpoint down_from (n : nat) : list nat :=
  match n with
  | 0 => []
  | S k => k :: down_from k
  end.

Lemma down_from_bound (n k : nat) : k ∈ down_from n → k < n.
Proof.
  induction n as [|n IH]; cbn [down_from]; [by intros ?%elem_of_nil |].
  intros [->|?%IH]%elem_of_cons; lia.
Qed.

Lemma down_from_NoDup (n : nat) : NoDup (down_from n).
Proof.
  induction n as [|n IH]; cbn [down_from]; constructor; [| done].
  intros ?%down_from_bound. lia.
Qed.

(** The registry of a provider: identifiers are handed out in order;
    while mounted the newest registration is the live one and all older
    ones were unregistered; before mounting and after teardown nothing
    is live. *)
Definition registry_ok (st : Provider) : Prop :=
  registrations (log st) = down_from (next_sub st)
  ∧ match phase st with
    | Fresh => next_sub st = 0 ∧ subscription st = None ∧ removals (log st) = []
    | Mounted =>
        ∃ k, next_sub st = S k
             ∧ subscription st = Some (k, effect_dep st)
             ∧ removals (log st) = down_from k
    | TornDown => subscription st = None ∧ removals (log st) = down_from (next_sub st)
    end.

(** After every step the effect has caught up with [loading]. *)
Definition effect_ok (st : Provider) : Prop :=
  registry_ok st ∧ (phase st = Mounted → loading st = effect_dep st).

(** A segment leaves the registry alone. *)
Definition quiet (st st' : Provider) : Prop :=
  phase st' = phase st
  ∧ subscription st' = subscription st
  ∧ next_sub st' = next_sub st
  ∧ effect_dep st' = effect_dep st
  ∧ registrations (log st') = registrations (log st)
  ∧ removals (log st') = removals (log st).

Lemma quiet_registry (st st' : Provider) :
  quiet st st' → registry_ok st → registry_ok st'.
Proof.
  unfold quiet, registry_ok.
  intros (-> & -> & -> & -> & -> & ->). done.
Qed.

Lemma commit_effect_ok (st : Provider) : registry_ok st → effect_ok (commit st).
Proof.
  unfold effect_ok, registry_ok. intros [Hreg Hph].
  open_state st. destruct ph; [done | | done].
  destruct Hph as (k & -> & -> & Hrem).
  destruct l, dep; reduce_model; cbn [registrations removals down_from] in *;
    rewrite ?Hreg, ?Hrem; eauto 10.
Qed.

Ltac show_quiet st :=
  unfold quiet; split_state st; repeat split; reflexivity.

Lemma quiet_handler (st : Provider) (cl : bool) (event : string)
    (session : option Session) :
  quiet st (schedule OpHandler (handler cl event session st)).
Proof.
  unfold handler.
  destruct (String.eqb event "SIGNED_OUT"), session as [s|]; cbn [orb negb has_user];
    show_quiet st.
Qed.

Lemma quiet_resume (st : Provider) (t : Task) (r : Reply) (m : gmap nat Task) (n : nat) :
  quiet st (resume t r (with_tasks m n st)).
Proof.
  destruct t, r as [[[s|] ?] [?|] | ?]; show_quiet st.
Qed.

Lemma quiet_signUp (st : Provider) (email password username : string) :
  quiet st (schedule OpSignUp (signUp email password username st)).
Proof. show_quiet st. Qed.

Lemma quiet_signIn (st : Provider) (email password : string) :
  quiet st (schedule OpSignIn (signIn email password st)).
Proof. show_quiet st. Qed.

Lemma quiet_signOut (st : Provider) : quiet st (schedule OpSignOut (signOut st)).
Proof. show_quiet st. Qed.

Lemma quiet_signInWithGoogle (st : Provider) :
  quiet st (schedule OpSignInWithGoogle (signInWithGoogle st)).
Proof. show_quiet st. Qed.

(** The shapes a step can have. *)
Lemma step_cases (st : Provider) (e : Event) :
  step st e = st
  ∨ (∃ st', quiet st st' ∧ step st e = commit st')
  ∨ (e = Mount ∧ phase st = Fresh ∧ step st e = useEffect_body (with_phase Mounted st))
  ∨ (e = Unmount ∧ phase st = Mounted
     ∧ step st e = with_phase TornDown (useEffect_cleanup st))
  ∨ (∃ now, e = ClockTick now ∧ step st e = on_browser (with_clock now) st).
Proof.
  destruct e as [| |event session|i r|email password username|email password| | |now];
    cbn [step].
  - destruct (phase st) eqn:E; eauto 10.
  - destruct (phase st) eqn:E; eauto 10.
  - destruct (subscription st) as [[sub cl]|]; [| by left].
    right; left. eauto using quiet_handler.
  - destruct (tasks st !! i) as [t|]; [| by left].
    right; left. eauto using quiet_resume.
  - right; left. eauto using quiet_signUp.
  - right; left. eauto using quiet_signIn.
  - right; left. eauto using quiet_signOut.
  - right; left. eauto using quiet_signInWithGoogle.
  - eauto 10.
Qed.

Lemma step_effect_ok (st : Provider) (e : Event) : effect_ok st → effect_ok (step st e).
Proof.
  intros [Hreg Hdep].
  destruct (step_cases st e) as
    [-> | [(st' & Hq & ->) | [(-> & Hph & ->) | [(-> & Hph & ->) | (now & -> & ->)]]]].
  - done.
  - apply commit_effect_ok. by eapply quiet_registry.
  - unfold effect_ok, registry_ok in *. destruct Hreg as [Hr Hp]. rewrite Hph in Hp.
    destruct Hp as (Hn & Hs & Hrem). open_state st.
    reduce_model. cbn [registrations removals down_from]. rewrite Hr, Hrem. eauto 10.
  - unfold effect_ok, registry_ok in *. destruct Hreg as [Hr Hp]. rewrite Hph in Hp.
    destruct Hp as (k & Hn & Hs & Hrem). open_state st.
    reduce_model. cbn [registrations removals down_from]. rewrite Hr, Hrem. eauto 10.
  - unfold effect_ok, registry_ok in *. by open_state st.
Qed.

Lemma fresh_effect_ok (b : Browser) : effect_ok (fresh b).
Proof. by repeat split. Qed.

Lemma run_effect_ok (events : list Event) (st : Provider) :
  effect_ok st → effect_ok (run st events).
Proof.
  revert st. induction events as [|e es IH]; intros st H; [done |].
  apply (IH (step st e)). by apply step_effect_ok.
Qed.

(** Every mounted state a provider can reach holds a subscription. *)
Lemma mounted_is_subscribed (b : Browser) (events : list Event) :
  phase (run (fresh b) events) = Mounted →
  is_Some (subscription (run (fresh b) events)).
Proof.
  intros Hph.
  destruct (run_effect_ok events (fresh b) (fresh_effect_ok b)) as [[_ H] _].
  rewrite Hph in H. destruct H as (k & _ & -> & _). by eexists.
Qed.

Lemma commit_next_sub (st : Provider) :
  phase st = Mounted →
  next_sub (commit st)
  = if Bool.eqb (loading st) (effect_dep st) then next_sub st else S (next_sub st).
Proof. intros H. by split_state st. Qed.

Lemma step_next_sub (st : Provider) (e : Event) :
  effect_ok st →
  phase st = Mounted →
  phase (step st e) = Mounted →
  next_sub (step st e)
  = if Bool.eqb (loading (step st e)) (loading st) then next_sub st
    else S (next_sub st).
Proof.
  intros [Hreg Hdep] Hph Hph'. specialize (Hdep Hph).
  destruct (step_cases st e) as
    [E | [(st' & Hq & E) | [(-> & Hf & E) | [(-> & _ & E) | (now & -> & E)]]]];
    rewrite E in *.
  - by rewrite eqb_reflx.
  - rewrite commit_phase in Hph'. rewrite commit_loading, commit_next_sub by done.
    destruct Hq as (_ & _ & -> & -> & _). by rewrite Hdep.
  - congruence.
  - by open_state st.
  - by split_state st.
Qed.

(** C8, as the code has it: the effect depends on [loading], so the
    provider holds one subscription at a time rather than one for its
    whole life.  Identifiers are registered once each, in order.  While
    the provider is mounted exactly one registration is live, the newest,
    and every older one was unregistered exactly once; a step registers
    a new subscription (after unregistering the live one) exactly when
    it changes [loading]; after teardown every registration was
    unregistered exactly once and none is live. *)
Theorem one_live_subscription_per_effect (b : Browser) (events : list Event) (e : Event) :
  registrations (log (run (fresh b) events))
  = down_from (next_sub (run (fresh b) events))
  ∧ NoDup (registrations (log (run (fresh b) events)))
  ∧ NoDup (removals (log (run (fresh b) events)))
  ∧ match phase (run (fresh b) events) with
    | Fresh =>
        subscription (run (fresh b) events) = None
        ∧ registrations (log (run (fresh b) events)) = []
        ∧ removals (log (run (fresh b) events)) = []
    | Mounted =>
        ∃ k cl,
          subscription (run (fresh b) events) = Some (k, cl)
          ∧ registrations (log (run (fresh b) events))
            = k :: removals (log (run (fresh b) events))
    | TornDown =>
        subscription (run (fresh b) events) = None
        ∧ removals (log (run (fresh b) events))
          = registrations (log (run (fresh b) events))
    end
  ∧ (phase (run (fresh b) events) = Mounted →
     phase (step (run (fresh b) events) e) = Mounted →
     registrations (log (step (run (fresh b) events) e))
     = if Bool.eqb (loading (step (run (fresh b) events) e))
                   (loading (run (fresh b) events))
       then registrations (log (run (fresh b) events))
       else next_sub (run (fresh b) events)
            :: registrations (log (run (fresh b) events))).
Proof.
  pose proof (run_effect_ok events (fresh b) (fresh_effect_ok b)) as Hok.
  pose proof (step_effect_ok _ e Hok) as [[Hreg' _] _].
  pose proof (step_next_sub _ e Hok) as Hnext.
  destruct Hok as [[Hreg Hph] Hdep].
  set (st := run (fresh b) events) in *.
  split; [done |]. split; [rewrite Hreg; apply down_from_NoDup |].
  split; [| split].
  - destruct (phase st); [by destruct Hph as (_ & _ & ->); constructor | |].
    + destruct Hph as (k & _ & _ & ->). apply down_from_NoDup.
    + destruct Hph as (_ & ->). apply down_from_NoDup.
  - destruct (phase st).
    + destruct Hph as (Hn & Hs & Hr). by rewrite Hreg, Hn.
    + destruct Hph as (k & Hn & Hs & Hr). exists k, (effect_dep st).
      by rewrite Hreg, Hn, Hr.
    + destruct Hph as (Hs & Hr). by rewrite Hreg, Hr.
  - intros H1 H2. rewrite Hreg', (Hnext H1 H2), Hreg.
    by destruct (Bool.eqb _ _).
Qed.

Lemma one_live_subscription_per_effect_witness :
  phase (run (fresh Sample.browser) [Mount]) = Mounted
  ∧ phase (step (run (fresh Sample.browser) [Mount]) (Settle 0 Sample.no_session))
    = Mounted
  ∧ registrations
      (log (step (run (fresh Sample.browser) [Mount]) (Settle 0 Sample.no_session)))
    = (if Bool.eqb
            (loading (step (run (fresh Sample.browser) [Mount])
                           (Settle 0 Sample.no_session)))
            (loading (run (fresh Sample.browser) [Mount]))
       then registrations (log (run (fresh Sample.browser) [Mount]))
       else next_sub (run (fresh Sample.browser) [Mount])
            :: registrations (log (run (fresh Sample.browser) [Mount]))).
Proof.
  assert (H1 : phase (run (fresh Sample.browser) [Mount]) = Mounted)
    by (vm_compute; reflexivity).
  assert (H2 : phase (step (run (fresh Sample.browser) [Mount])
                           (Settle 0 Sample.no_session)) = Mounted)
    by (vm_compute; reflexivity).
  destruct (one_live_subscription_per_effect Sample.browser [Mount]
              (Settle 0 Sample.no_session)) as (_ & _ & _ & _ & H).
  exact (conj H1 (conj H2 (H H1 H2))).
Defined.

(** The claim itself fails: one mount whose first session check has
    resolved has registered two subscriptions and unregistered the first
    before any teardown. *)
Lemma second_registration_within_one_mount :
  phase Sample.settled = Mounted
  ∧ registrations (log Sample.settled) = [1; 0]
  ∧ removals (log Sample.settled) = [0]
  ∧ count is_subscribe (log Sample.settled) = 2.
Proof. by vm_compute. Qed.

(** ** Credential operations and the local user *)

(** The user changes only in a notification handler, in a resumption of
    the session check, or in the resumption of [signOut] after its
    remote call: never in a step of [signUp], [signIn] or
    [signInWithGoogle], nor when an upsert or the sign-out timer settles. *)
Lemma user_writers (st : Provider) (e : Event) :
  user (step st e) ≠ user st →
  match e with
  | Notify _ _ => True
  | Settle i _ =>
      match tasks st !! i with
      | Some AwaitGetSession | Some (AwaitGetUser _) | Some AwaitSignOut => True
      | _ => False
      end
  | _ => False
  end.
Proof.
  intros H.
  destruct e as [| |event session|i r|email password username|email password| | |now];
    cbn [step] in H; try done;
    try (by destruct H; rewrite ?commit_user, ?schedule_user; split_state st).
  destruct (tasks st !! i) as [t|] eqn:Hi; [| done].
  rewrite commit_user in H.
  destruct t; try done; destruct H; destruct r as [[[s|] ?] [?|] | ?];
    by split_state st.
Qed.

(** A credential call on a mounted provider whose [loading] is false
    changes [loading], so the effect runs again and parks a new session
    check behind the operation. *)
Lemma credential_call_restarts_session_check (st : Provider) :
  phase st = Mounted → loading st = false → effect_dep st = false →
  (∀ email password,
     tasks (step st (CallSignIn email password)) !! S (next_task st)
     = Some AwaitGetSession)
  ∧ (∀ email password username,
       tasks (step st (CallSignUp email password username)) !! S (next_task st)
       = Some AwaitGetSession).
Proof.
  intros Hph Hl Hd.
  split; intros; cbn [step]; split_state st; reduce_model; apply lookup_insert_eq.
Qed.

(** C6, as the code has it: [signUp] and [signIn] never write the local
    user.  The step that starts the operation and the step that resumes
    it with a successful remote result both leave [user] as it was, and
    the operation fulfils its promise with the raw [data] of the remote
    result.  The user changes only in a notification handler, in a
    resumption of the session check or in [signOut] after its remote
    call.  The session check is not independent of the operation: on a
    mounted provider whose [loading] is false (in any state it can
    reach) the call changes [loading], the effect runs again and starts a
    session check, and
    that check sets the user when [getSession()] and [getUser()] succeed,
    without any notification. *)
Theorem successful_credentials_leave_user (b : Browser) (events : list Event)
    (st : Provider) (i : nat) (data : RemoteData) (e : Event) (s : Session) :
  (∀ email password, user (step st (CallSignIn email password)) = user st)
  ∧ (∀ email password username,
       user (step st (CallSignUp email password username)) = user st)
  ∧ (tasks st !! i = Some AwaitSignIn →
       user (step st (Settle i (Resolved data None))) = user st
       ∧ snd (signIn_result (Resolved data None) st) = Done (Fulfilled (Some data))
       ∧ Finished OpSignIn (Fulfilled (Some data))
           ∈ log (step st (Settle i (Resolved data None))))
  ∧ (tasks st !! i = Some AwaitSignUp →
       user (step st (Settle i (Resolved data None))) = user st
       ∧ snd (signUp_result (Resolved data None) st) = Done (Fulfilled (Some data))
       ∧ Finished OpSignUp (Fulfilled (Some data))
           ∈ log (step st (Settle i (Resolved data None))))
  ∧ (user (step st e) ≠ user st →
       (∃ event session, e = Notify event session)
       ∨ (∃ j r, e = Settle j r
            ∧ (tasks st !! j = Some AwaitGetSession
               ∨ (∃ s', tasks st !! j = Some (AwaitGetUser s'))
               ∨ tasks st !! j = Some AwaitSignOut)))
  ∧ (phase (run (fresh b) events) = Mounted → loading (run (fresh b) events) = false →
       (∀ email password,
          tasks (step (run (fresh b) events) (CallSignIn email password))
            !! S (next_task (run (fresh b) events)) = Some AwaitGetSession)
       ∧ (∀ email password username,
            tasks (step (run (fresh b) events) (CallSignUp email password username))
              !! S (next_task (run (fresh b) events)) = Some AwaitGetSession))
  ∧ (tasks st !! i = Some AwaitGetSession → data_session data = Some s →
       tasks (step st (Settle i (Resolved data None))) !! next_task st
       = Some (AwaitGetUser s))
  ∧ (phase st = Mounted → tasks st !! i = Some (AwaitGetUser s) →
       user (step st (Settle i (Resolved data None))) = Some (user_of_session s)).
Proof.
  split; [| split; [| split; [| split; [| split; [| split; [| split]]]]]].
  - intros. cbn [step]. rewrite commit_user, schedule_user. by split_state st.
  - intros. cbn [step]. rewrite commit_user, schedule_user. by split_state st.
  - intros H. cbn [step]. rewrite H. cbn [resume]. split; [| split].
    + rewrite commit_user, schedule_user. by split_state st.
    + done.
    + split_state st; reduce_model; set_solver.
  - intros H. cbn [step]. rewrite H. cbn [resume]. split; [| split].
    + rewrite commit_user, schedule_user. by split_state st.
    + done.
    + split_state st; reduce_model; set_solver.
  - intros H. pose proof (user_writers st e H) as Hw.
    destruct e as [| |event session|j r| | | | |]; try done.
    + left. by eauto.
    + right. exists j, r. split; [done |].
      destruct (tasks st !! j) as [[]|]; try done; eauto.
  - intros Hph Hl.
    destruct (run_effect_ok events (fresh b) (fresh_effect_ok b)) as [_ Hdep].
    apply credential_call_restarts_session_check; [done | done |].
    by rewrite <- (Hdep Hph).
  - intros Hi Hs. rewrite (step_settle _ _ _ _ Hi). cbn [resume].
    unfold initializeAuth_session. rewrite Hs.
    assert (next_task st
            = next_task (call GetUser (with_tasks (delete i (tasks st)) (next_task st) st)))
      as -> by (by destruct st).
    apply parked_task.
  - intros Hph Hi. cbn [step]. rewrite Hi. cbn [resume].
    rewrite commit_user, schedule_user. clear Hi. by split_state st.
Qed.

Lemma successful_credentials_leave_user_witness :
  (tasks (step Sample.settled (CallSignIn "a@example.com" "secret")) !! 2
   = Some AwaitSignIn
   ∧ user (step (step Sample.settled (CallSignIn "a@example.com" "secret"))
                (Settle 2 (Resolved Sample.signed_in None)))
     = user (step Sample.settled (CallSignIn "a@example.com" "secret")))
  ∧ (tasks (step Sample.settled (CallSignUp "a@example.com" "secret" "ada")) !! 2
     = Some AwaitSignUp
     ∧ user (step (step Sample.settled (CallSignUp "a@example.com" "secret" "ada"))
                  (Settle 2 (Resolved Sample.signed_in None)))
       = user (step Sample.settled (CallSignUp "a@example.com" "secret" "ada")))
  ∧ (user (step Sample.settled (Notify "SIGNED_IN" (Some Sample.session)))
     ≠ user Sample.settled)
  ∧ (phase (run (fresh Sample.browser) [Mount; Settle 0 Sample.no_session]) = Mounted
     ∧ loading (run (fresh Sample.browser) [Mount; Settle 0 Sample.no_session]) = false
     ∧ tasks (step (run (fresh Sample.browser) [Mount; Settle 0 Sample.no_session])
                (CallSignIn "a@example.com" "secret"))
         !! S (next_task (run (fresh Sample.browser) [Mount; Settle 0 Sample.no_session]))
       = Some AwaitGetSession)
  ∧ (tasks (run (fresh Sample.browser) [Mount]) !! 0 = Some AwaitGetSession
     ∧ data_session Sample.signed_in = Some Sample.session
     ∧ tasks (step (run (fresh Sample.browser) [Mount])
                (Settle 0 (Resolved Sample.signed_in None)))
         !! next_task (run (fresh Sample.browser) [Mount])
       = Some (AwaitGetUser Sample.session))
  ∧ (tasks (run (fresh Sample.browser) [Mount; Settle 0 (Resolved Sample.signed_in None)])
       !! 1 = Some (AwaitGetUser Sample.session)
     ∧ user (step (run (fresh Sample.browser)
                     [Mount; Settle 0 (Resolved Sample.signed_in None)])
                  (Settle 1 (Resolved Sample.signed_in None)))
       = Some (user_of_session Sample.session)).
Proof.
  assert (H1 : tasks (step Sample.settled (CallSignIn "a@example.com" "secret")) !! 2
               = Some AwaitSignIn) by (vm_compute; reflexivity).
  assert (H2 : tasks (step Sample.settled (CallSignUp "a@example.com" "secret" "ada")) !! 2
               = Some AwaitSignUp) by (vm_compute; reflexivity).
  assert (H3 : user (step Sample.settled (Notify "SIGNED_IN" (Some Sample.session)))
               ≠ user Sample.settled) by (vm_compute; discriminate).
  assert (H4 : phase (run (fresh Sample.browser) [Mount; Settle 0 Sample.no_session])
               = Mounted) by (vm_compute; reflexivity).
  assert (H5 : loading (run (fresh Sample.browser) [Mount; Settle 0 Sample.no_session])
               = false) by (vm_compute; reflexivity).
  assert (H7 : phase (run (fresh Sample.browser)
                        [Mount; Settle 0 (Resolved Sample.signed_in None)]) = Mounted)
    by (vm_compute; reflexivity).
  assert (H8 : tasks (run (fresh Sample.browser)
                        [Mount; Settle 0 (Resolved Sample.signed_in None)]) !! 1
               = Some (AwaitGetUser Sample.session)) by (vm_compute; reflexivity).
  destruct (successful_credentials_leave_user Sample.browser
              [Mount; Settle 0 Sample.no_session]
              (step Sample.settled (CallSignIn "a@example.com" "secret")) 2
              Sample.signed_in Mount Sample.session) as (_ & _ & C1 & _).
  destruct (successful_credentials_leave_user Sample.browser
              [Mount; Settle 0 Sample.no_session]
              (step Sample.settled (CallSignUp "a@example.com" "secret" "ada")) 2
              Sample.signed_in Mount Sample.session) as (_ & _ & _ & C2 & _).
  destruct (successful_credentials_leave_user Sample.browser
              [Mount; Settle 0 Sample.no_session] Sample.settled 0 Sample.signed_in
              (Notify "SIGNED_IN" (Some Sample.session)) Sample.session)
    as (_ & _ & _ & _ & _ & C4 & _).
  destruct (successful_credentials_leave_user Sample.browser
              [Mount; Settle 0 Sample.no_session]
              (run (fresh Sample.browser)
                 [Mount; Settle 0 (Resolved Sample.signed_in None)]) 1
              Sample.signed_in Mount Sample.session)
    as (_ & _ & _ & _ & _ & _ & _ & C5).
  destruct (successful_credentials_leave_user Sample.browser
              [Mount; Settle 0 Sample.no_session]
              (run (fresh Sample.browser) [Mount]) 0
              Sample.signed_in Mount Sample.session)
    as (_ & _ & _ & _ & _ & _ & C6 & _).
  assert (H9 : tasks (run (fresh Sample.browser) [Mount]) !! 0 = Some AwaitGetSession)
    by (vm_compute; reflexivity).
  assert (H10 : data_session Sample.signed_in = Some Sample.session) by reflexivity.
  exact (conj (conj H1 (proj1 (C1 H1)))
        (conj (conj H2 (proj1 (C2 H2)))
        (conj H3
        (conj (conj H4 (conj H5 (proj1 (C4 H4 H5) _ _)))
        (conj (conj H9 (conj H10 (C6 H9 H10)))
              (conj H8 (C5 H7 H8))))))).
Defined.

(** The claim itself fails where it says that the user is updated by
    the notification path only.  On a mounted provider without a user,
    [signIn] is called and succeeds; the session check that the call
    itself started (task 3, which did not exist before) then finds the
    session and validates it, and the user is set, although no
    notification was ever delivered. *)
Lemma user_is_set_without_a_notification :
  phase Sample.settled = Mounted
  ∧ user Sample.settled = None
  ∧ tasks Sample.settled !! 3 = None
  ∧ tasks (step Sample.settled (CallSignIn "a@example.com" "secret")) !! 3
    = Some AwaitGetSession
  ∧ user (run Sample.settled
            [CallSignIn "a@example.com" "secret";
             Settle 2 (Resolved Sample.signed_in None)]) = None
  ∧ tasks (run Sample.settled
             [CallSignIn "a@example.com" "secret";
              Settle 2 (Resolved Sample.signed_in None);
              Settle 3 (Resolved Sample.signed_in None)]) !! 5
    = Some (AwaitGetUser Sample.session)
  ∧ user (run Sample.settled
            [CallSignIn "a@example.com" "secret";
             Settle 2 (Resolved Sample.signed_in None);
             Settle 3 (Resolved Sample.signed_in None);
             Settle 5 (Resolved Sample.signed_in None)])
    = Some (user_of_session Sample.session).
Proof. by vm_compute. Qed.

(** ** The loading flag *)

(** The calls that set [loading] back to true. *)
Definition raises_loading (e : Event) : bool :=
  match e with
  | CallSignUp _ _ _ | CallSignIn _ _ | CallSignOut => true
  | _ => false
  end.

(** The resumptions after which the function reaches a
    [setLoading(false)]: the session check unless it goes on to
    [getUser()], the handler when its closure saw [loading] true, the
    credential operations when they settle. *)
Definition clears_loading (t : Task) (r : Reply) : bool :=
  match t with
  | AwaitGetSession =>
      match r with
      | Resolved data None => negb (has_user (data_session data))
      | _ => true
      end
  | AwaitGetUser _ => true
  | AwaitUpsert closure_loading => closure_loading
  | AwaitSignUp | AwaitSignIn => true
  | AwaitSignOut =>
      match r with
      | Raised _ => true
      | Resolved _ _ => false
      end
  | AwaitSignOutDelay => true
  | AwaitOAuth => false
  end.

Lemma loading_stays_false (st : Provider) (e : Event) :
  raises_loading e = false → loading st = false → loading (step st e) = false.
Proof.
  intros He Hl.
  destruct e as [| |event session|i r|email password username|email password| | |now];
    try discriminate He; cbn [step].
  - by split_state st.
  - by split_state st.
  - destruct (subscription st) as [[sub cl]|]; [| done].
    rewrite commit_loading, schedule_loading. unfold handler.
    destruct (String.eqb event "SIGNED_OUT"), session as [s|], cl;
      cbn [orb negb has_user]; by split_state st.
  - destruct (tasks st !! i) as [t|]; [| done].
    rewrite commit_loading.
    destruct t, r as [[[s|] ?] [?|] | ?]; by split_state st.
  - rewrite commit_loading, schedule_loading. by split_state st.
  - by split_state st.
Qed.

Lemma call_raises_loading (st : Provider) (e : Event) :
  raises_loading e = true → phase st = Mounted → loading (step st e) = true.
Proof.
  intros He Hph.
  destruct e; try discriminate He; cbn [step];
    rewrite commit_loading, schedule_loading; by split_state st.
Qed.

Lemma settle_clears_loading (st : Provider) (i : nat) (t : Task) (r : Reply) :
  tasks st !! i = Some t →
  clears_loading t r = true →
  phase st = Mounted →
  loading (step st (Settle i r)) = false.
Proof.
  intros Hi Hc Hph. rewrite (step_settle _ _ _ _ Hi), commit_loading. clear Hi.
  destruct t, r as [[[s|] ?] [?|] | ?]; try discriminate Hc; by split_state st.
Qed.

Lemma step_phase_mounted (st : Provider) (e : Event) :
  phase st = Mounted → e ≠ Unmount → phase (step st e) = Mounted.
Proof.
  intros Hph He.
  destruct (step_cases st e) as
    [-> | [(st' & Hq & ->) | [(-> & Hf & _) | [(-> & _ & _) | (now & -> & ->)]]]];
    try done.
  - rewrite commit_phase. destruct Hq as (-> & _). done.
  - congruence.
Qed.

Lemma notify_without_session_clears_loading (st : Provider) (event : string) :
  effect_ok st →
  phase st = Mounted →
  loading (step st (Notify event None)) = false.
Proof.
  intros [[_ Hreg] Hdep] Hph. specialize (Hdep Hph). rewrite Hph in Hreg.
  destruct Hreg as (k & _ & Hsub & _).
  rewrite (step_notify _ _ _ _ _ Hsub), commit_loading, schedule_loading.
  rewrite handler_cleared by (by right). clear Hsub.
  by split_state st.
Qed.

Lemma completed_handler_clears_loading (st : Provider) (event : string) (s : Session)
    (r : Reply) :
  effect_ok st →
  phase st = Mounted →
  loading (run st [Notify event (Some s); Settle (next_task st) r]) = false.
Proof.
  intros Hok Hph. cbn [run foldl].
  destruct Hok as [[_ Hreg] Hdep]. specialize (Hdep Hph). rewrite Hph in Hreg.
  destruct Hreg as (k & _ & Hsub & _).
  destruct (String.eqb_spec event "SIGNED_OUT") as [->|Hne].
  - apply loading_stays_false; [done |].
    rewrite (step_notify _ _ _ _ _ Hsub), commit_loading, schedule_loading.
    rewrite handler_cleared by (by left). clear Hsub. by split_state st.
  - destruct (notify_parks_upsert st k (effect_dep st) event s Hsub Hne)
      as [Htask Hl].
    destruct (effect_dep st) eqn:Hcl.
    + eapply settle_clears_loading; [exact Htask | done |].
      by apply step_phase_mounted.
    + apply loading_stays_false; [done |]. by rewrite Hl, Hdep.
Qed.

Lemma completed_session_check_clears_loading (st : Provider) (i : nat)
    (data : RemoteData) (s : Session) (r : Reply) :
  tasks st !! i = Some AwaitGetSession →
  data_session data = Some s →
  phase st = Mounted →
  loading (run st [Settle i (Resolved data None); Settle (next_task st) r]) = false.
Proof.
  intros Hi Hs Hph. cbn [run foldl].
  eapply (settle_clears_loading _ _ (AwaitGetUser s)); [| done |].
  - rewrite (step_settle _ _ _ _ Hi). cbn [resume]. unfold initializeAuth_session.
    rewrite Hs.
    assert (next_task st
            = next_task (call GetUser (with_tasks (delete i (tasks st)) (next_task st) st)))
      as -> by (by destruct st).
    apply parked_task.
  - by apply step_phase_mounted.
Qed.

(** The events that neither raise [loading] nor tear the provider
    down. *)
Definition undisturbed (e : Event) : bool :=
  negb (raises_loading e)
  && match e with
     | Unmount => false
     | _ => true
     end.

(** A step keeps the continuations it does not resume. *)
Lemma step_keeps_task (st : Provider) (e : Event) (i : nat) :
  i < next_task st →
  (∀ r, e ≠ Settle i r) →
  tasks (step st e) !! i = tasks st !! i ∧ i < next_task (step st e).
Proof.
  intros Hi He.
  destruct e as [| |event session|j r|email password username|email password| | |now];
    cbn [step].
  - split_state st; reduce_model; rewrite ?lookup_insert_ne by lia; split; (done || lia).
  - split_state st; reduce_model; split; (done || lia).
  - destruct (subscription st) as [[sub cl]|] eqn:Hs; [| done]. clear Hs. unfold handler.
    destruct (String.eqb event "SIGNED_OUT"), session as [s|]; cbn [orb negb has_user];
      split_state st; reduce_model; rewrite ?lookup_insert_ne by lia;
      split; (done || lia).
  - destruct (decide (j = i)) as [-> | Hne]; [by destruct (He r) |].
    destruct (tasks st !! j) as [t|] eqn:Hj; [| done]. clear Hj.
    destruct t, r as [[[s|] ?] [?|] | ?];
      split_state st; reduce_model; cbn [data_session]; reduce_model;
      rewrite ?lookup_insert_ne by lia; rewrite ?lookup_delete_ne by done;
      split; (done || lia).
  - split_state st; reduce_model; rewrite ?lookup_insert_ne by lia; split; (done || lia).
  - split_state st; reduce_model; rewrite ?lookup_insert_ne by lia; split; (done || lia).
  - split_state st; reduce_model; rewrite ?lookup_insert_ne by lia; split; (done || lia).
  - split_state st; reduce_model; rewrite ?lookup_insert_ne by lia; split; (done || lia).
  - by destruct st.
Qed.

Lemma settles_or_not (e : Event) (i : nat) :
  (∃ r, e = Settle i r) ∨ (∀ r, e ≠ Settle i r).
Proof.
  destruct e as [| |?event ?session|j r| | | | |]; try (by right).
  destruct (decide (j = i)) as [-> | Hne]; [left; by eauto |].
  right. intros r' [= ? _]. done.
Qed.

(** A handler that waits for its upsert clears [loading] when it
    completes, whatever is handled before that, unless [loading] is
    raised or the provider torn down in between: if its closure saw
    [loading] true it clears it itself, and if not, [loading] was false
    when the notification came and stayed so. *)
Lemma pending_handler_clears_loading (between : list Event) (st : Provider) (i : nat)
    (r : Reply) :
  phase st = Mounted →
  i < next_task st →
  tasks st !! i = Some (AwaitUpsert true) ∨ loading st = false →
  forallb undisturbed between = true →
  loading (run st (between ++ [Settle i r])%list) = false.
Proof.
  revert st. induction between as [|e between IH]; intros st Hph Hi Hinv Hb.
  - cbn [app run foldl]. destruct Hinv as [Ht | Hl].
    + by eapply settle_clears_loading.
    + by apply loading_stays_false.
  - cbn [forallb] in Hb. apply andb_prop in Hb as [He Hb].
    unfold undisturbed in He. apply andb_prop in He as [Hr%negb_true_iff Hu].
    change (run st ((e :: between) ++ [Settle i r])%list)
      with (run (step st e) (between ++ [Settle i r])%list).
    assert (Hne : e ≠ Unmount) by (by intros ->).
    destruct Hinv as [Ht | Hl].
    + destruct (settles_or_not e i) as [[r' ->] | Hns].
      * apply IH; try done.
        -- by apply step_phase_mounted.
        -- rewrite (step_settle _ _ _ _ Ht). clear Ht.
           split_state st; destruct r'; reduce_model; lia.
        -- right. by eapply settle_clears_loading.
      * destruct (step_keeps_task st e i Hi Hns) as [Hk Hlt].
        apply IH; try done; [by apply step_phase_mounted | left; by rewrite Hk].
    + assert (Hlt : i < next_task (step st e)).
      { destruct (settles_or_not e i) as [[r' ->] | Hns].
        - cbn [step]. destruct (tasks st !! i) as [t|] eqn:Ht; [| done]. clear Ht.
          destruct t, r' as [[[s|] ?] [?|] | ?];
            split_state st; reduce_model; cbn [data_session]; reduce_model; lia.
        - by destruct (step_keeps_task st e i Hi Hns) as [_ ?]. }
      apply IH; try done; [by apply step_phase_mounted |].
      right. by apply loading_stays_false.
Qed.

Lemma completed_handler_leaves_loading_false (st : Provider) (event : string)
    (s : Session) (between : list Event) (r : Reply) :
  effect_ok st →
  phase st = Mounted →
  event ≠ "SIGNED_OUT" →
  forallb undisturbed between = true →
  loading (run st (Notify event (Some s) :: between ++ [Settle (next_task st) r])%list)
  = false.
Proof.
  intros Hok Hph Hne Hb.
  destruct Hok as [[_ Hreg] Hdep]. specialize (Hdep Hph). rewrite Hph in Hreg.
  destruct Hreg as (k & _ & Hsub & _).
  destruct (notify_parks_upsert st k (effect_dep st) event s Hsub Hne) as [Htask Hl].
  change (run st (Notify event (Some s) :: between ++ [Settle (next_task st) r])%list)
    with (run (step st (Notify event (Some s)))
            (between ++ [Settle (next_task st) r])%list).
  apply pending_handler_clears_loading; try done.
  - by apply step_phase_mounted.
  - rewrite (step_notify _ _ _ _ _ Hsub), (handler_session _ _ _ _ Hne). clear.
    split_state st; reduce_model; lia.
  - destruct (effect_dep st); [left; done | right; by rewrite Hl, Hdep].
Qed.

Lemma immediate_handler_clears_loading (st : Provider) (event : string)
    (session : option Session) :
  effect_ok st →
  phase st = Mounted →
  event = "SIGNED_OUT" ∨ session = None →
  loading (step st (Notify event session)) = false.
Proof.
  intros [[_ Hreg] Hdep] Hph Hc. specialize (Hdep Hph). rewrite Hph in Hreg.
  destruct Hreg as (k & _ & Hsub & _).
  rewrite (step_notify _ _ _ _ _ Hsub), commit_loading, schedule_loading.
  rewrite handler_cleared by done. clear Hsub.
  by split_state st.
Qed.

(** The handler tests the [loading] its closure captured: when that was
    false, its completion leaves [loading] as it is. *)
Lemma stale_handler_keeps_loading (st : Provider) (i : nat) (r : Reply) :
  tasks st !! i = Some (AwaitUpsert false) →
  loading (step st (Settle i r)) = loading st.
Proof.
  intros Hi. rewrite (step_settle _ _ _ _ Hi), commit_loading. cbn [resume].
  rewrite schedule_loading. clear Hi. destruct r; by split_state st.
Qed.

(** C4, as the code has it: [loading] is true after mount; every
    completed session check leaves it false; a notification handler
    that completes leaves it false, provided that between the delivery
    of the notification and the completion of its handler no call of
    [signUp], [signIn] or [signOut] is made and the provider is not torn
    down (the handler tests the [loading] its closure captured, and a
    handler whose closure captured false leaves [loading] as it is); no
    step other than a call of [signUp], [signIn] or [signOut] ever sets
    it to true; each such call on a mounted provider does set it back to
    true, and the operation sets it to false again when it settles. *)
Theorem loading_is_raised_only_by_credential_calls (b : Browser) (events : list Event)
    (st : Provider) (e : Event) (i : nat) (t : Task) (r : Reply)
    (event : string) (session : option Session) (data : RemoteData) (s : Session)
    (between : list Event) :
  loading (run (fresh b) [Mount]) = true
  ∧ (raises_loading e = false → loading st = false → loading (step st e) = false)
  ∧ (raises_loading e = true → phase st = Mounted → loading (step st e) = true)
  ∧ (tasks st !! i = Some t → clears_loading t r = true → phase st = Mounted →
     loading (step st (Settle i r)) = false)
  ∧ (tasks st !! i = Some AwaitGetSession → data_session data = Some s →
     phase st = Mounted →
     loading (run st [Settle i (Resolved data None); Settle (next_task st) r]) = false)
  ∧ (phase (run (fresh b) events) = Mounted →
     event = "SIGNED_OUT" ∨ session = None →
     loading (step (run (fresh b) events) (Notify event session)) = false)
  ∧ (phase (run (fresh b) events) = Mounted →
     event ≠ "SIGNED_OUT" →
     forallb undisturbed between = true →
     loading (run (run (fresh b) events)
                (Notify event (Some s)
                 :: between ++ [Settle (next_task (run (fresh b) events)) r])%list)
     = false)
  ∧ (tasks st !! i = Some (AwaitUpsert false) →
     loading (step st (Settle i r)) = loading st).
Proof.
  pose proof (run_effect_ok events (fresh b) (fresh_effect_ok b)) as Hok.
  split; [done |].
  split; [apply loading_stays_false |].
  split; [apply call_raises_loading |].
  split; [apply settle_clears_loading |].
  split; [apply completed_session_check_clears_loading |].
  split; [by apply immediate_handler_clears_loading |].
  split; [by apply completed_handler_leaves_loading_false |].
  apply stale_handler_keeps_loading.
Qed.

Lemma loading_is_raised_only_by_credential_calls_witness :
  (raises_loading (Notify "SIGNED_IN" (Some Sample.session)) = false
   ∧ loading Sample.settled = false
   ∧ loading (step Sample.settled (Notify "SIGNED_IN" (Some Sample.session))) = false)
  ∧ (raises_loading CallSignOut = true
     ∧ phase Sample.settled = Mounted
     ∧ loading (step Sample.settled CallSignOut) = true)
  ∧ (tasks (step Sample.settled CallSignOut) !! 2 = Some AwaitSignOut
     ∧ clears_loading AwaitSignOut (Raised (mkAuthError "Failed to fetch")) = true
     ∧ phase (step Sample.settled CallSignOut) = Mounted
     ∧ loading (step (step Sample.settled CallSignOut)
                     (Settle 2 (Raised (mkAuthError "Failed to fetch")))) = false)
  ∧ (tasks (run (fresh Sample.browser) [Mount]) !! 0 = Some AwaitGetSession
     ∧ data_session Sample.signed_in = Some Sample.session
     ∧ phase (run (fresh Sample.browser) [Mount]) = Mounted
     ∧ loading (run (run (fresh Sample.browser) [Mount])
                  [Settle 0 (Resolved Sample.signed_in None);
                   Settle (next_task (run (fresh Sample.browser) [Mount]))
                     Sample.no_session]) = false)
  ∧ loading (step (run (fresh Sample.browser) [Mount]) (Notify "SIGNED_OUT" None)) = false
  ∧ ("SIGNED_IN" ≠ "SIGNED_OUT"
     ∧ forallb undisturbed
         [Settle 0 Sample.no_session; CallSignInWithGoogle;
          Notify "TOKEN_REFRESHED" None] = true
     ∧ loading (run (run (fresh Sample.browser) [Mount])
                  (Notify "SIGNED_IN" (Some Sample.session)
                   :: [Settle 0 Sample.no_session; CallSignInWithGoogle;
                       Notify "TOKEN_REFRESHED" None]
                      ++ [Settle (next_task (run (fresh Sample.browser) [Mount]))
                            Sample.no_session])%list) = false)
  ∧ (tasks (run Sample.settled
              [Notify "TOKEN_REFRESHED" (Some Sample.session); CallSignOut]) !! 2
     = Some (AwaitUpsert false)
     ∧ loading (step (run Sample.settled
                        [Notify "TOKEN_REFRESHED" (Some Sample.session); CallSignOut])
                     (Settle 2 Sample.no_session))
       = loading (run Sample.settled
                    [Notify "TOKEN_REFRESHED" (Some Sample.session); CallSignOut])).
Proof.
  assert (A1 : raises_loading (Notify "SIGNED_IN" (Some Sample.session)) = false)
    by reflexivity.
  assert (A2 : loading Sample.settled = false) by (vm_compute; reflexivity).
  assert (B1 : raises_loading CallSignOut = true) by reflexivity.
  assert (B2 : phase Sample.settled = Mounted) by (vm_compute; reflexivity).
  assert (C1 : tasks (step Sample.settled CallSignOut) !! 2 = Some AwaitSignOut)
    by (vm_compute; reflexivity).
  assert (C2 : clears_loading AwaitSignOut (Raised (mkAuthError "Failed to fetch")) = true)
    by reflexivity.
  assert (C3 : phase (step Sample.settled CallSignOut) = Mounted)
    by (vm_compute; reflexivity).
  assert (D1 : tasks (run (fresh Sample.browser) [Mount]) !! 0 = Some AwaitGetSession)
    by (vm_compute; reflexivity).
  assert (D2 : data_session Sample.signed_in = Some Sample.session) by reflexivity.
  assert (D3 : phase (run (fresh Sample.browser) [Mount]) = Mounted)
    by (vm_compute; reflexivity).
  assert (E1 : "SIGNED_OUT" = "SIGNED_OUT" ∨ @None Session = None) by (by left).
  assert (F1 : "SIGNED_IN" ≠ "SIGNED_OUT") by discriminate.
  assert (F2 : forallb undisturbed
                 [Settle 0 Sample.no_session; CallSignInWithGoogle;
                  Notify "TOKEN_REFRESHED" None] = true) by reflexivity.
  assert (G1 : tasks (run Sample.settled
                        [Notify "TOKEN_REFRESHED" (Some Sample.session); CallSignOut]) !! 2
               = Some (AwaitUpsert false)) by (vm_compute; reflexivity).
  destruct (loading_is_raised_only_by_credential_calls Sample.browser [Mount]
              Sample.settled (Notify "SIGNED_IN" (Some Sample.session)) 0
              AwaitGetSession Sample.no_session "SIGNED_OUT" None Sample.signed_in
              Sample.session []) as (_ & HA & _ & _ & _ & HE & _).
  destruct (loading_is_raised_only_by_credential_calls Sample.browser [Mount]
              Sample.settled CallSignOut 0
              AwaitGetSession Sample.no_session "SIGNED_IN" None Sample.signed_in
              Sample.session
              [Settle 0 Sample.no_session; CallSignInWithGoogle;
               Notify "TOKEN_REFRESHED" None]) as (_ & _ & HB & _ & _ & _ & HF & _).
  destruct (loading_is_raised_only_by_credential_calls Sample.browser [Mount]
              (step Sample.settled CallSignOut) CallSignOut 2
              AwaitSignOut (Raised (mkAuthError "Failed to fetch")) "SIGNED_IN" None
              Sample.signed_in Sample.session []) as (_ & _ & _ & HC & _).
  destruct (loading_is_raised_only_by_credential_calls Sample.browser [Mount]
              (run (fresh Sample.browser) [Mount]) CallSignOut 0
              AwaitGetSession Sample.no_session "SIGNED_IN" None Sample.signed_in
              Sample.session []) as (_ & _ & _ & _ & HD & _).
  destruct (loading_is_raised_only_by_credential_calls Sample.browser [Mount]
              (run Sample.settled
                 [Notify "TOKEN_REFRESHED" (Some Sample.session); CallSignOut])
              CallSignOut 2 AwaitGetSession Sample.no_session "SIGNED_IN" None
              Sample.signed_in Sample.session []) as (_ & _ & _ & _ & _ & _ & _ & HG).
  exact (conj (conj A1 (conj A2 (HA A1 A2)))
        (conj (conj B1 (conj B2 (HB B1 B2)))
        (conj (conj C1 (conj C2 (conj C3 (HC C1 C2 C3))))
        (conj (conj D1 (conj D2 (conj D3 (HD D1 D2 D3))))
        (conj (HE D3 E1)
        (conj (conj F1 (conj F2 (HF D3 F1 F2)))
              (conj G1 (HG G1)))))))).
Defined.

(** The claim itself fails: on a mounted provider whose first session
    check has cleared [loading], calling [signIn] sets it back to true. *)
Lemma signIn_sets_loading_back :
  phase Sample.settled = Mounted
  ∧ loading (run (fresh Sample.browser) [Mount]) = true
  ∧ loading Sample.settled = false
  ∧ loading (step Sample.settled (CallSignIn "a@example.com" "secret")) = true.
Proof. by vm_compute. Qed.

(** Nor does every completed handler leave [loading] false: a handler
    that was waiting for its upsert when [signOut] was called captured
    [loading] false, so its completion does not clear the [loading] that
    [signOut] raised. *)
Lemma handler_does_not_clear_a_later_loading :
  phase Sample.settled = Mounted
  ∧ loading Sample.settled = false
  ∧ tasks (run Sample.settled
             [Notify "TOKEN_REFRESHED" (Some Sample.session); CallSignOut]) !! 2
    = Some (AwaitUpsert false)
  ∧ head (log (run Sample.settled
                 [Notify "TOKEN_REFRESHED" (Some Sample.session); CallSignOut;
                  Settle 2 Sample.no_session]))
    = Some (Finished OpHandler (Fulfilled None))
  ∧ loading (run Sample.settled
               [Notify "TOKEN_REFRESHED" (Some Sample.session); CallSignOut;
                Settle 2 Sample.no_session]) = true.
Proof. by vm_compute. Qed.

(** ** Cookie strings *)

Lemma app_nil_r (s : string) : s +:+ "" = s.
Proof. induction s as [|a s IH]; [done |]. by rewrite app_cons, IH. Qed.











(** A string without line terminators is consumed whole by [.*]. *)
Fixpoint single_line (s : string) : bool :=
  match s with
  | EmptyString => true
  | String _ s' => negb (Js.at_line_terminator s) && single_line s'
  end.





(** ** Clearing the cookie store *)


(** A cookie the loop of [signOut] can expire.  [document.cookie] lists
    it with a name and a value on one line; it was stored for the
    document's host only, under the path ["/"] and unpartitioned, so the
    loop's assignment addresses it; and the store accepts that
    assignment: scripts can read the cookie, its name has no prefix that
    demands [Secure], and no stored cookie keeps scripts from writing
    it. *)
Definition addressable (b : Browser) (c : Cookie) : bool :=
  negb (String.eqb (cookie_name c) "") && single_line (cookie_value c)
  && String.eqb (cookie_domain c) (Dom.hostname b) && cookie_host_only c
  && String.eqb (cookie_path c) "/" && negb (cookie_partitioned c)
  && negb (cookie_http_only c)
  && (negb (cookie_secure c) || Dom.secure_context b)
  && negb (Dom.prefixed (cookie_name c))
  && forallb (λ x, negb (Dom.blocks (Dom.hostname b) (Dom.secure_context b)
                           (cookie_name c) "/" x))
       (cookie_jar b).





























(** ** Signing out *)

(** The value the timer promise resolves with is not read. *)
Definition timer_fired : Reply := Resolved (mkRemoteData None None) None.

(** One complete call of [signOut]: the call, the settlement of the
    remote sign-out with [reply], and, unless the remote call threw, the
    firing of the 100 ms timer. *)
Definition signOut_trace (st : Provider) (reply : Reply) : list Event :=
  CallSignOut :: Settle (next_task st) reply ::
  match reply with
  | Resolved _ _ => [Settle (next_task (step st CallSignOut)) timer_fired]
  | Raised _ => []
  end.

Lemma finished_logged (op : Operation) (c : Completion (option RemoteData))
    (st : Provider) :
  Finished op c ∈ log (commit (schedule op (st, Done c))).
Proof. split_state st; reduce_model; set_solver. Qed.


Lemma signOut_called (st : Provider) :
  phase (step st CallSignOut) = phase st
  ∧ user (step st CallSignOut) = user st
  ∧ browser (step st CallSignOut)
    = clear_cookies (Dom.sessionStorage_clear (Dom.localStorage_clear (browser st))).
Proof.
  cbn [step]. rewrite commit_phase, commit_user, commit_browser.
  rewrite schedule_phase, schedule_user, schedule_browser.
  by split_state st.
Qed.

Lemma signOut_delay_parked (st : Provider) (i : nat) (data : RemoteData)
    (error : option AuthError) :
  tasks st !! i = Some AwaitSignOut →
  tasks (step st (Settle i (Resolved data error))) !! next_task st
  = Some AwaitSignOutDelay.
Proof.
  intros Hi. rewrite (step_settle _ _ _ _ Hi). cbn [resume]. unfold signOut_result.
  apply parked_task_at. clear Hi. by destruct error; split_state st.
Qed.

Lemma signOut_resolved (st : Provider) (i : nat) (data : RemoteData)
    (error : option AuthError) :
  tasks st !! i = Some AwaitSignOut →
  phase st = Mounted →
  phase (step st (Settle i (Resolved data error))) = Mounted
  ∧ user (step st (Settle i (Resolved data error))) = None
  ∧ browser (step st (Settle i (Resolved data error))) = browser st.
Proof.
  intros Hi Hph. rewrite (step_settle _ _ _ _ Hi). cbn [resume].
  rewrite commit_phase, commit_user, commit_browser.
  rewrite schedule_phase, schedule_user, schedule_browser. clear Hi.
  by destruct error; split_state st.
Qed.


Lemma signOut_delayed (st : Provider) (i : nat) (r : Reply) :
  tasks st !! i = Some AwaitSignOutDelay →
  phase st = Mounted →
  user (step st (Settle i r)) = user st
  ∧ loading (step st (Settle i r)) = false
  ∧ browser (step st (Settle i r)) = Dom.location_replace "/" (browser st)
  ∧ Finished OpSignOut (Fulfilled None) ∈ log (step st (Settle i r)).
Proof.
  intros Hi Hph. rewrite (step_settle _ _ _ _ Hi). cbn [resume].
  split; [| split; [| split]].
  - rewrite commit_user, schedule_user. clear Hi. by split_state st.
  - rewrite commit_loading, schedule_loading. clear Hi. by split_state st.
  - rewrite commit_browser, schedule_browser. clear Hi. by split_state st.
  - clear Hi. split_state st; reduce_model; set_solver.
Qed.


(** Two browsers that agree on what the cookie store depends on. *)
Definition same_cookie_view (b b' : Browser) : Prop :=
  cookie_jar b = cookie_jar b' ∧ history b = history b' ∧ clock b = clock b'
  ∧ origin b = origin b'.

Lemma set_document_cookie_view (s : string) (b b' : Browser) :
  same_cookie_view b b' →
  same_cookie_view (Dom.set_document_cookie s b) (Dom.set_document_cookie s b').
Proof.
  intros (Hj & Hh & Hc & Ho).
  unfold same_cookie_view, Dom.set_document_cookie, Dom.hostname, Dom.secure_context,
    Dom.default_path, Dom.pathname.
  destruct b, b'; cbn in *; subst. done.
Qed.

Lemma cookie_loop_view (pieces : list string) (b b' : Browser) :
  same_cookie_view b b' →
  same_cookie_view
    (foldl (λ b c, Dom.set_document_cookie (expiring_assignment (clock b) c) b) b pieces)
    (foldl (λ b c, Dom.set_document_cookie (expiring_assignment (clock b) c) b) b' pieces).
Proof.
  revert b b'. induction pieces as [|p ps IH]; intros b b' H; [done |].
  cbn [foldl]. apply IH. destruct H as (Hj & Hh & Hc & Ho). rewrite Hc.
  by apply set_document_cookie_view.
Qed.

Lemma cookie_loop_frame (pieces : list string) (b : Browser) :
  localStorage
    (foldl (λ b c, Dom.set_document_cookie (expiring_assignment (clock b) c) b) b pieces)
  = localStorage b
  ∧ sessionStorage
      (foldl (λ b c, Dom.set_document_cookie (expiring_assignment (clock b) c) b) b pieces)
    = sessionStorage b
  ∧ history
      (foldl (λ b c, Dom.set_document_cookie (expiring_assignment (clock b) c) b) b pieces)
    = history b
  ∧ clock
      (foldl (λ b c, Dom.set_document_cookie (expiring_assignment (clock b) c) b) b pieces)
    = clock b.
Proof.
  revert b. induction pieces as [|p ps IH]; intros b; [done |].
  cbn [foldl]. destruct (IH (Dom.set_document_cookie (expiring_assignment (clock b) p) b))
    as (-> & -> & -> & ->).
  by destruct b.
Qed.

(** The loop touches nothing but the cookie store, and the store it
    leaves does not depend on the storage areas. *)
Lemma clear_cookies_frame (b : Browser) :
  localStorage (clear_cookies b) = localStorage b
  ∧ sessionStorage (clear_cookies b) = sessionStorage b
  ∧ history (clear_cookies b) = history b
  ∧ clock (clear_cookies b) = clock b
  ∧ cookie_jar (clear_cookies (Dom.sessionStorage_clear (Dom.localStorage_clear b)))
    = cookie_jar (clear_cookies b).
Proof.
  unfold clear_cookies.
  destruct (cookie_loop_frame (Js.split ";" (Dom.document_cookie b)) b)
    as (-> & -> & -> & ->).
  repeat split.
  change (Dom.document_cookie (Dom.sessionStorage_clear (Dom.localStorage_clear b)))
    with (Dom.document_cookie b).
  apply cookie_loop_view. by destruct b.
Qed.

(** The completions of [signOut] in the log. *)
Definition is_signed_out (e : Entry) : bool :=
  match e with
  | Finished OpSignOut (Fulfilled None) => true
  | _ => false
  end.

Lemma signOut_call_completes_nothing (st : Provider) :
  count is_signed_out (log (step st CallSignOut)) = count is_signed_out (log st).
Proof. cbn [step]. split_state st; reduce_model; reflexivity. Qed.

Lemma signOut_resolved_completes_nothing (st : Provider) (i : nat) (data : RemoteData)
    (error : option AuthError) :
  tasks st !! i = Some AwaitSignOut →
  count is_signed_out (log (step st (Settle i (Resolved data error))))
  = count is_signed_out (log st).
Proof.
  intros Hi. rewrite (step_settle _ _ _ _ Hi). cbn [resume]. clear Hi.
  destruct error; split_state st; reduce_model; reflexivity.
Qed.


Lemma signOut_delay_completes (st : Provider) (i : nat) (r : Reply) :
  tasks st !! i = Some AwaitSignOutDelay →
  count is_signed_out (log (step st (Settle i r)))
  = S (count is_signed_out (log st)).
Proof.
  intros Hi. rewrite (step_settle _ _ _ _ Hi). cbn [resume]. clear Hi.
  split_state st; reduce_model; reflexivity.
Qed.



(** Whether a segment ends by rejecting the promise of its function. *)
Definition rejects (o : Outcome) : bool :=
  match o with
  | Done (Rejected _) => true
  | _ => false
  end.

Lemma signOut_never_rejects (r : Reply) (s : Provider) :
  rejects (snd (signOut s)) = false
  ∧ rejects (snd (signOut_result r s)) = false
  ∧ rejects (snd (signOut_delay s)) = false.
Proof. by destruct r. Qed.




(** Nor does the path ["/"] suffice: of the cookies stored under it, the
    loop leaves the one set for the whole domain, the one that scripts
    cannot read, the one whose name demands [Secure] and the one whose
    value holds a line separator; it expires the last one only. *)
Lemma guarded_root_cookies_survive_signOut :
  Dom.hostname (browser Sample.portal) = "inflow.example"
  ∧ cookie_name <$> cookie_jar (browser Sample.portal)
    = ["sid"; "refresh"; "__Host-csrf"; "note"; "theme"]
  ∧ cookie_path <$> cookie_jar (browser Sample.portal) = ["/"; "/"; "/"; "/"; "/"]
  ∧ addressable (browser Sample.portal) <$> cookie_jar (browser Sample.portal)
    = [false; false; false; false; true]
  ∧ cookie_name <$> cookie_jar (browser (run Sample.portal
       (signOut_trace Sample.portal Sample.no_session)))
    = ["sid"; "refresh"; "__Host-csrf"; "note"].
Proof. by vm_compute. Qed.




(** * Further properties of the provider *)

Definition is_console_error (e : Entry) : bool :=
  match e with
  | ConsoleError _ => true
  | _ => false
  end.

Definition is_get_session (e : Entry) : bool :=
  match e with
  | Called GetSession => true
  | _ => false
  end.

(** ** Error messages of the facade *)

(** X1: The middle branches of the two classifications: the patterns are
    tried in the order of the source, so a later pattern decides only
    when the earlier ones are absent. *)
Theorem later_patterns_decide_after_earlier (st : Provider) (data : RemoteData)
    (msg : string) :
  (¬ contains msg "already registered" → contains msg "Invalid email" →
     snd (signUp_result (Resolved data (Some (mkAuthError msg))) st)
     = Done (Rejected (NewError "Please enter a valid email address.")))
  ∧ (¬ contains msg "already registered" → ¬ contains msg "Invalid email" →
     contains msg "Password" →
     snd (signUp_result (Resolved data (Some (mkAuthError msg))) st)
     = Done (Rejected (NewError "Password must be at least 6 characters long.")))
  ∧ (¬ contains msg "Invalid login credentials" → contains msg "Email not confirmed" →
     snd (signIn_result (Resolved data (Some (mkAuthError msg))) st)
     = Done (Rejected (NewError
         "Please check your email and click the verification link before signing in.")))
  ∧ (¬ contains msg "Invalid login credentials" → ¬ contains msg "Email not confirmed" →
     contains msg "Too many requests" →
     snd (signIn_result (Resolved data (Some (mkAuthError msg))) st)
     = Done (Rejected (NewError
         "Too many login attempts. Please wait a moment and try again."))).
Proof.
  unfold signIn_result, signUp_result, signIn_error_message, signUp_error_message.
  cbn [snd message].
  split; [| split; [| split]].
  - intros H1 H2. by rewrite (includes_false _ _ H1), (includes_true _ _ H2).
  - intros H1 H2 H3.
    by rewrite (includes_false _ _ H1), (includes_false _ _ H2), (includes_true _ _ H3).
  - intros H1 H2. by rewrite (includes_false _ _ H1), (includes_true _ _ H2).
  - intros H1 H2 H3.
    by rewrite (includes_false _ _ H1), (includes_false _ _ H2), (includes_true _ _ H3).
Qed.

Lemma later_patterns_decide_after_earlier_witness :
  (¬ contains "Invalid email format" "already registered"
   ∧ contains "Invalid email format" "Invalid email"
   ∧ snd (signUp_result
            (Resolved Sample.signed_in (Some (mkAuthError "Invalid email format")))
            Sample.settled)
     = Done (Rejected (NewError "Please enter a valid email address.")))
  ∧ (¬ contains "Too many requests, slow down" "Invalid login credentials"
     ∧ ¬ contains "Too many requests, slow down" "Email not confirmed"
     ∧ contains "Too many requests, slow down" "Too many requests"
     ∧ snd (signIn_result
              (Resolved Sample.signed_in
                 (Some (mkAuthError "Too many requests, slow down")))
              Sample.settled)
       = Done (Rejected (NewError
           "Too many login attempts. Please wait a moment and try again."))).
Proof.
  assert (A1 : ¬ contains "Invalid email format" "already registered")
    by (apply not_contains_by_includes; vm_compute; reflexivity).
  assert (A2 : contains "Invalid email format" "Invalid email")
    by (by exists "", " format").
  assert (B1 : ¬ contains "Too many requests, slow down" "Invalid login credentials")
    by (apply not_contains_by_includes; vm_compute; reflexivity).
  assert (B2 : ¬ contains "Too many requests, slow down" "Email not confirmed")
    by (apply not_contains_by_includes; vm_compute; reflexivity).
  assert (B3 : contains "Too many requests, slow down" "Too many requests")
    by (by exists "", ", slow down").
  destruct (later_patterns_decide_after_earlier Sample.settled Sample.signed_in
              "Invalid email format") as (HA & _).
  destruct (later_patterns_decide_after_earlier Sample.settled Sample.signed_in
              "Too many requests, slow down") as (_ & _ & _ & HB).
  exact (conj (conj A1 (conj A2 (HA A1 A2)))
              (conj B1 (conj B2 (conj B3 (HB B1 B2 B3))))).
Defined.

(** X2: The message an operation throws for a remote error is never empty,
    and classifying a message that is already a facade message returns
    it unchanged: wrapping an error twice does not change what the user
    reads. *)
Theorem facade_messages_are_stable (msg : string) :
  signIn_error_message msg ≠ ""
  ∧ signUp_error_message msg ≠ ""
  ∧ signIn_error_message (signIn_error_message msg) = signIn_error_message msg
  ∧ signUp_error_message (signUp_error_message msg) = signUp_error_message msg.
Proof.
  assert (Hin : ∀ m, signIn_error_message m
      = "Invalid email or password. Please check your credentials and try again."
    ∨ signIn_error_message m
      = "Please check your email and click the verification link before signing in."
    ∨ signIn_error_message m
      = "Too many login attempts. Please wait a moment and try again."
    ∨ signIn_error_message m = "Sign in failed. Please try again."
    ∨ (signIn_error_message m = m ∧ m ≠ ""
       ∧ Js.includes m "Invalid login credentials" = false
       ∧ Js.includes m "Email not confirmed" = false
       ∧ Js.includes m "Too many requests" = false)).
  { intros m. unfold signIn_error_message.
    destruct (Js.includes m "Invalid login credentials"); [by left |].
    destruct (Js.includes m "Email not confirmed"); [by right; left |].
    destruct (Js.includes m "Too many requests"); [by right; right; left |].
    destruct m; [by right; right; right; left |]. by right; right; right; right. }
  assert (Hup : ∀ m, signUp_error_message m
      = "An account with this email already exists. Please sign in instead."
    ∨ signUp_error_message m = "Please enter a valid email address."
    ∨ signUp_error_message m = "Password must be at least 6 characters long."
    ∨ signUp_error_message m = "Account creation failed. Please try again."
    ∨ (signUp_error_message m = m ∧ m ≠ ""
       ∧ Js.includes m "already registered" = false
       ∧ Js.includes m "Invalid email" = false
       ∧ Js.includes m "Password" = false)).
  { intros m. unfold signUp_error_message.
    destruct (Js.includes m "already registered"); [by left |].
    destruct (Js.includes m "Invalid email"); [by right; left |].
    destruct (Js.includes m "Password"); [by right; right; left |].
    destruct m; [by right; right; right; left |]. by right; right; right; right. }
  split; [| split; [| split]].
  - destruct (Hin msg) as [-> | [-> | [-> | [-> | (-> & ? & _)]]]]; done.
  - destruct (Hup msg) as [-> | [-> | [-> | [-> | (-> & ? & _)]]]]; done.
  - destruct (Hin msg) as [-> | [-> | [-> | [-> | (E & Hne & H1 & H2 & H3)]]]];
      try (vm_compute; reflexivity).
    rewrite E. exact E.
  - destruct (Hup msg) as [-> | [-> | [-> | [-> | (E & Hne & H1 & H2 & H3)]]]];
      try (vm_compute; reflexivity).
    rewrite E. exact E.
Qed.

(** ** Exceptions thrown by the remote client *)

(** X3: When the remote call of [signIn] or [signUp] throws instead of
    returning an error, the [catch] block re-throws the very same value:
    it is neither classified nor wrapped nor logged; [loading] is still
    cleared by the [finally] and the user is not touched. *)
Theorem thrown_exceptions_pass_through (st : Provider) (i : nat) (e : AuthError)
    (t : Task) (op : Operation) :
  phase st = Mounted →
  tasks st !! i = Some t →
  (t = AwaitSignIn ∧ op = OpSignIn) ∨ (t = AwaitSignUp ∧ op = OpSignUp) →
  Finished op (Rejected (Foreign e)) ∈ log (step st (Settle i (Raised e)))
  ∧ count is_console_error (log (step st (Settle i (Raised e))))
    = count is_console_error (log st)
  ∧ loading (step st (Settle i (Raised e))) = false
  ∧ user (step st (Settle i (Raised e))) = user st.
Proof.
  intros Hph Hi Ht. rewrite (step_settle _ _ _ _ Hi). clear Hi.
  destruct Ht as [[-> ->] | [-> ->]]; cbn [resume];
    (split; [apply finished_logged |]);
    (split; [by split_state st |]);
    rewrite commit_loading, commit_user, schedule_loading, schedule_user;
    by split_state st.
Qed.

Lemma thrown_exceptions_pass_through_witness :
  phase (step Sample.settled (CallSignIn "a@example.com" "secret")) = Mounted
  ∧ tasks (step Sample.settled (CallSignIn "a@example.com" "secret")) !! 2
    = Some AwaitSignIn
  ∧ Finished OpSignIn (Rejected (Foreign (mkAuthError "Failed to fetch")))
      ∈ log (step (step Sample.settled (CallSignIn "a@example.com" "secret"))
                  (Settle 2 (Raised (mkAuthError "Failed to fetch"))))
  ∧ loading (step (step Sample.settled (CallSignIn "a@example.com" "secret"))
                  (Settle 2 (Raised (mkAuthError "Failed to fetch")))) = false.
Proof.
  assert (H1 : phase (step Sample.settled (CallSignIn "a@example.com" "secret"))
               = Mounted) by (vm_compute; reflexivity).
  assert (H2 : tasks (step Sample.settled (CallSignIn "a@example.com" "secret")) !! 2
               = Some AwaitSignIn) by (vm_compute; reflexivity).
  destruct (thrown_exceptions_pass_through
              (step Sample.settled (CallSignIn "a@example.com" "secret")) 2
              (mkAuthError "Failed to fetch") AwaitSignIn OpSignIn H1 H2
              (or_introl (conj eq_refl eq_refl))) as (Hf & _ & Hl & _).
  exact (conj H1 (conj H2 (conj Hf Hl))).
Defined.

(** ** Google sign-in *)

(** X4: [signInWithGoogle] is a pure pass-through: neither the call nor its
    settlement touches the user, [loading] or the browser, and on a
    mounted provider it leaves the subscription in place.  A returned
    error is thrown with its own message, whatever it contains, or with
    "Google sign-in failed" when the message is empty; a thrown
    exception is not caught. *)
Theorem google_sign_in_is_a_pass_through (b : Browser) (events : list Event)
    (st : Provider) (i : nat) (r : Reply) :
  (user (step st CallSignInWithGoogle) = user st
   ∧ loading (step st CallSignInWithGoogle) = loading st
   ∧ browser (step st CallSignInWithGoogle) = browser st
   ∧ tasks (step st CallSignInWithGoogle) !! next_task st = Some AwaitOAuth)
  ∧ (tasks st !! i = Some AwaitOAuth →
     user (step st (Settle i r)) = user st
     ∧ loading (step st (Settle i r)) = loading st
     ∧ browser (step st (Settle i r)) = browser st
     ∧ Finished OpSignInWithGoogle
         (match r with
          | Resolved data None => Fulfilled (Some data)
          | Resolved _ (Some error) =>
              Rejected (NewError
                (match message error with
                 | EmptyString => "Google sign-in failed"
                 | String _ _ => message error
                 end))
          | Raised e => Rejected (Foreign e)
          end) ∈ log (step st (Settle i r)))
  ∧ (phase (run (fresh b) events) = Mounted →
     subscription (step (run (fresh b) events) CallSignInWithGoogle)
     = subscription (run (fresh b) events)
     ∧ registrations (log (step (run (fresh b) events) CallSignInWithGoogle))
       = registrations (log (run (fresh b) events))).
Proof.
  split; [| split].
  - cbn [step]. rewrite commit_user, commit_loading, commit_browser.
    rewrite schedule_user, schedule_loading, schedule_browser.
    repeat split; try done.
    unfold signInWithGoogle. by apply parked_task_at.
  - intros Hi. rewrite (step_settle _ _ _ _ Hi). clear Hi. cbn [resume].
    rewrite commit_user, commit_loading, commit_browser.
    rewrite schedule_user, schedule_loading, schedule_browser.
    destruct r as [data [[m]|] | e]; cbn [signInWithGoogle_result message Js.or_else];
      (repeat split; try done); apply finished_logged.
  - intros Hph.
    destruct (run_effect_ok events (fresh b) (fresh_effect_ok b)) as [_ Hdep].
    specialize (Hdep Hph). revert Hph Hdep.
    generalize (run (fresh b) events). intros s Hph Hdep.
    by split_state s.
Qed.

Lemma google_sign_in_is_a_pass_through_witness :
  tasks (step Sample.settled CallSignInWithGoogle) !! 2 = Some AwaitOAuth
  ∧ phase (run (fresh Sample.browser) [Mount; Settle 0 Sample.no_session]) = Mounted
  ∧ loading (step (step Sample.settled CallSignInWithGoogle)
                  (Settle 2 (Resolved Sample.signed_in
                               (Some (mkAuthError "Invalid login credentials")))))
    = loading (step Sample.settled CallSignInWithGoogle)
  ∧ Finished OpSignInWithGoogle
      (Rejected (NewError "Invalid login credentials"))
      ∈ log (step (step Sample.settled CallSignInWithGoogle)
                  (Settle 2 (Resolved Sample.signed_in
                               (Some (mkAuthError "Invalid login credentials")))))
  ∧ subscription
      (step (run (fresh Sample.browser) [Mount; Settle 0 Sample.no_session])
            CallSignInWithGoogle)
    = subscription (run (fresh Sample.browser) [Mount; Settle 0 Sample.no_session]).
Proof.
  assert (H1 : tasks (step Sample.settled CallSignInWithGoogle) !! 2 = Some AwaitOAuth)
    by (vm_compute; reflexivity).
  assert (H2 : phase (run (fresh Sample.browser) [Mount; Settle 0 Sample.no_session])
               = Mounted) by (vm_compute; reflexivity).
  destruct (google_sign_in_is_a_pass_through Sample.browser
              [Mount; Settle 0 Sample.no_session]
              (step Sample.settled CallSignInWithGoogle) 2
              (Resolved Sample.signed_in
                 (Some (mkAuthError "Invalid login credentials"))))
    as (_ & HB & HC).
  destruct (HB H1) as (_ & Hl & _ & Hf). destruct (HC H2) as (Hs & _).
  exact (conj H1 (conj H2 (conj Hl (conj Hf Hs)))).
Defined.

(** ** The session check *)

(** The session both calls of [initializeAuth] vouch for: [getSession()]
    returned a session without an error and [getUser()] returned no
    error. *)
Definition validated (first second : Reply) : option Session :=
  match first with
  | Resolved data None =>
      match data_session data, second with
      | Some session, Resolved _ None => Some session
      | _, _ => None
      end
  | _ => None
  end.

(** One complete run of [initializeAuth] from its [getSession()] on:
    [getUser()] is awaited only when [getSession()] found a session. *)
Definition session_check (st : Provider) (i : nat) (first second : Reply) : list Event :=
  Settle i first ::
  match first with
  | Resolved data None =>
      if has_user (data_session data) then [Settle (next_task st) second] else []
  | _ => []
  end.

(** X5: A complete session check leaves the user present exactly when the
    session is validated twice, by [getSession()] and by [getUser()], and
    the user is then the projection of that session; in every other case
    (no session, an error or an exception of either call) the user is
    absent.  [loading] is false afterwards and [initializeAuth] fulfils
    its promise. *)
Theorem session_check_needs_two_validations (st : Provider) (i : nat)
    (first second : Reply) :
  phase st = Mounted →
  tasks st !! i = Some AwaitGetSession →
  user (run st (session_check st i first second))
  = user_of_session <$> validated first second
  ∧ loading (run st (session_check st i first second)) = false
  ∧ Finished OpInitializeAuth (Fulfilled None)
      ∈ log (run st (session_check st i first second)).
Proof.
  intros Hph Hi. unfold session_check, validated.
  destruct first as [data [e1|] | e1]; cbn [run foldl].
  - rewrite (step_settle _ _ _ _ Hi). cbn [resume]. clear Hi.
    split; [| split]; [| | apply finished_logged];
      rewrite ?commit_user, ?commit_loading, ?schedule_user, ?schedule_loading;
      by split_state st.
  - destruct (data_session data) as [s|] eqn:Hs; cbn [has_user run foldl].
    + assert (Hpark : tasks (step st (Settle i (Resolved data None))) !! next_task st
                      = Some (AwaitGetUser s)).
      { rewrite (step_settle _ _ _ _ Hi). cbn [resume]. unfold initializeAuth_session.
        rewrite Hs. apply parked_task_at. by destruct st. }
      assert (Hph1 : phase (step st (Settle i (Resolved data None))) = Mounted)
        by (by apply step_phase_mounted).
      rewrite (step_settle _ _ _ _ Hpark). cbn [resume].
      revert Hph1. generalize (step st (Settle i (Resolved data None))). intros s1 Hph1.
      split; [| split]; [| | destruct second as [? [?|] | ?]; apply finished_logged];
        rewrite ?commit_user, ?commit_loading, ?schedule_user, ?schedule_loading;
        destruct second as [? [?|] | ?]; by split_state s1.
    + rewrite (step_settle _ _ _ _ Hi). cbn [resume]. unfold initializeAuth_session.
      rewrite Hs. clear Hi.
      split; [| split]; [| | apply finished_logged];
        rewrite ?commit_user, ?commit_loading, ?schedule_user, ?schedule_loading;
        by split_state st.
  - rewrite (step_settle _ _ _ _ Hi). cbn [resume]. clear Hi.
    split; [| split]; [| | apply finished_logged];
      rewrite ?commit_user, ?commit_loading, ?schedule_user, ?schedule_loading;
      by split_state st.
Qed.

Lemma session_check_needs_two_validations_witness :
  phase (run (fresh Sample.browser) [Mount]) = Mounted
  ∧ tasks (run (fresh Sample.browser) [Mount]) !! 0 = Some AwaitGetSession
  ∧ user (run (run (fresh Sample.browser) [Mount])
            (session_check (run (fresh Sample.browser) [Mount]) 0
               (Resolved Sample.signed_in None) Sample.no_session))
    = user_of_session <$> validated (Resolved Sample.signed_in None) Sample.no_session
  ∧ user (run (run (fresh Sample.browser) [Mount])
            (session_check (run (fresh Sample.browser) [Mount]) 0
               (Resolved Sample.signed_in None)
               (Raised (mkAuthError "Failed to fetch"))))
    = user_of_session <$>
        validated (Resolved Sample.signed_in None)
          (Raised (mkAuthError "Failed to fetch")).
Proof.
  assert (H1 : phase (run (fresh Sample.browser) [Mount]) = Mounted)
    by (vm_compute; reflexivity).
  assert (H2 : tasks (run (fresh Sample.browser) [Mount]) !! 0 = Some AwaitGetSession)
    by (vm_compute; reflexivity).
  exact (conj H1 (conj H2 (conj
    (proj1 (session_check_needs_two_validations _ 0
              (Resolved Sample.signed_in None) Sample.no_session H1 H2))
    (proj1 (session_check_needs_two_validations _ 0
              (Resolved Sample.signed_in None)
              (Raised (mkAuthError "Failed to fetch")) H1 H2))))).
Defined.

(** ** Every run of the effect repeats the session check *)

Lemma down_from_length (n : nat) : List.length (down_from n) = n.
Proof. induction n as [|n IH]; [done |]. cbn [down_from List.length]. by rewrite IH. Qed.

(** The log of a state from the field [lg] and the entries a segment
    put in front of it. *)
Ltac count_state st :=
  split_state st; cbn [count is_get_session is_upsert]; try reflexivity; try lia.

Lemma session_calls_handler (st : Provider) (cl : bool) (event : string)
    (session : option Session) :
  count is_get_session (log (schedule OpHandler (handler cl event session st)))
  = count is_get_session (log st).
Proof.
  unfold handler.
  destruct (String.eqb event "SIGNED_OUT"), session as [s|]; cbn [orb negb has_user];
    count_state st.
Qed.

Lemma session_calls_resume (st : Provider) (t : Task) (r : Reply) (m : gmap nat Task)
    (n : nat) :
  count is_get_session (log (resume t r (with_tasks m n st)))
  = count is_get_session (log st).
Proof. destruct t, r as [[[s|] ?] [?|] | ?]; count_state st. Qed.

Lemma session_calls_commit (st : Provider) :
  count is_get_session (log st) = next_sub st →
  count is_get_session (log (commit st)) = next_sub (commit st).
Proof.
  intros H. split_state st; reduce_model; cbn [count is_get_session] in *; lia.
Qed.

Lemma session_calls_step (st : Provider) (e : Event) :
  registry_ok st →
  count is_get_session (log st) = next_sub st →
  count is_get_session (log (step st e)) = next_sub (step st e).
Proof.
  intros Hreg H.
  destruct e as [| |event session|i r|email password username|email password| | |now];
    cbn [step].
  - destruct Hreg as [_ Hph]. destruct (phase st) eqn:E; try done.
    destruct Hph as (Hn & _ & _).
    open_state st. reduce_model. cbn [count is_get_session]. lia.
  - destruct (phase st) eqn:E; try done.
    split_state st; reduce_model; cbn [count is_get_session] in *; lia.
  - destruct (subscription st) as [[sub cl]|] eqn:Hs; [| done].
    apply session_calls_commit. rewrite session_calls_handler.
    destruct (quiet_handler st cl event session) as (_ & _ & -> & _). done.
  - destruct (tasks st !! i) as [t|] eqn:Hi; [| done].
    apply session_calls_commit. rewrite session_calls_resume.
    destruct (quiet_resume st t r (delete i (tasks st)) (next_task st))
      as (_ & _ & -> & _). done.
  - apply session_calls_commit.
    destruct (quiet_signUp st email password username) as (_ & _ & -> & _).
    rewrite <- H. clear. count_state st.
  - apply session_calls_commit.
    destruct (quiet_signIn st email password) as (_ & _ & -> & _).
    rewrite <- H. clear. count_state st.
  - apply session_calls_commit.
    destruct (quiet_signOut st) as (_ & _ & -> & _).
    rewrite <- H. clear. count_state st.
  - apply session_calls_commit.
    destruct (quiet_signInWithGoogle st) as (_ & _ & -> & _).
    rewrite <- H. clear. count_state st.
  - by destruct st.
Qed.

Lemma session_calls_run (events : list Event) (st : Provider) :
  effect_ok st →
  count is_get_session (log st) = next_sub st →
  count is_get_session (log (run st events)) = next_sub (run st events).
Proof.
  revert st. induction events as [|e es IH]; intros st Hok H; [done |].
  apply (IH (step st e)); [by apply step_effect_ok |].
  apply session_calls_step; [by destruct Hok | done].
Qed.

(** X6: The provider calls [getSession()] once per run of its effect, not
    once per mount: the number of session checks it has started equals
    the number of subscriptions it has registered, and a step of a
    mounted provider starts a new session check exactly when it changes
    [loading]. *)
Theorem session_check_repeats_with_the_effect (b : Browser) (events : list Event)
    (e : Event) :
  count is_get_session (log (run (fresh b) events))
  = List.length (registrations (log (run (fresh b) events)))
  ∧ (phase (run (fresh b) events) = Mounted →
     phase (step (run (fresh b) events) e) = Mounted →
     count is_get_session (log (step (run (fresh b) events) e))
     = if Bool.eqb (loading (step (run (fresh b) events) e))
                   (loading (run (fresh b) events))
       then count is_get_session (log (run (fresh b) events))
       else S (count is_get_session (log (run (fresh b) events)))).
Proof.
  pose proof (run_effect_ok events (fresh b) (fresh_effect_ok b)) as Hok.
  pose proof (session_calls_run events (fresh b) (fresh_effect_ok b) eq_refl) as Hc.
  pose proof (session_calls_step _ e (proj1 Hok) Hc) as Hc'.
  pose proof (step_next_sub _ e Hok) as Hnext.
  destruct Hok as [[Hreg _] _].
  split.
  - by rewrite Hc, Hreg, down_from_length.
  - intros H1 H2. rewrite Hc', (Hnext H1 H2), Hc. done.
Qed.

Lemma session_check_repeats_with_the_effect_witness :
  phase (run (fresh Sample.browser) [Mount; Settle 0 Sample.no_session]) = Mounted
  ∧ phase (step (run (fresh Sample.browser) [Mount; Settle 0 Sample.no_session])
                (CallSignIn "a@example.com" "secret")) = Mounted
  ∧ count is_get_session
      (log (step (run (fresh Sample.browser) [Mount; Settle 0 Sample.no_session])
                 (CallSignIn "a@example.com" "secret")))
    = (if Bool.eqb
            (loading (step (run (fresh Sample.browser) [Mount; Settle 0 Sample.no_session])
                           (CallSignIn "a@example.com" "secret")))
            (loading (run (fresh Sample.browser) [Mount; Settle 0 Sample.no_session]))
       then count is_get_session
              (log (run (fresh Sample.browser) [Mount; Settle 0 Sample.no_session]))
       else S (count is_get_session
                 (log (run (fresh Sample.browser) [Mount; Settle 0 Sample.no_session])))).
Proof.
  assert (H1 : phase (run (fresh Sample.browser) [Mount; Settle 0 Sample.no_session])
               = Mounted) by (vm_compute; reflexivity).
  assert (H2 : phase (step (run (fresh Sample.browser) [Mount; Settle 0 Sample.no_session])
                           (CallSignIn "a@example.com" "secret")) = Mounted)
    by (vm_compute; reflexivity).
  destruct (session_check_repeats_with_the_effect Sample.browser
              [Mount; Settle 0 Sample.no_session]
              (CallSignIn "a@example.com" "secret")) as (_ & H).
  exact (conj H1 (conj H2 (H H1 H2))).
Defined.

(** ** After teardown *)

(** X7: Once the provider is torn down nothing reaches its state any more:
    whatever happens next (a notification, the settlement of a call that
    was still in flight, a call through a stale closure), the user,
    [loading] and the subscription registry stay as they are, and no
    upsert is issued. *)
Theorem nothing_reaches_a_torn_down_provider (b : Browser) (events : list Event)
    (e : Event) :
  phase (run (fresh b) events) = TornDown →
  phase (step (run (fresh b) events) e) = TornDown
  ∧ user (step (run (fresh b) events) e) = user (run (fresh b) events)
  ∧ loading (step (run (fresh b) events) e) = loading (run (fresh b) events)
  ∧ subscription (step (run (fresh b) events) e) = None
  ∧ registrations (log (step (run (fresh b) events) e))
    = registrations (log (run (fresh b) events))
  ∧ count is_upsert (log (step (run (fresh b) events) e))
    = count is_upsert (log (run (fresh b) events)).
Proof.
  intros Hph.
  destruct (run_effect_ok events (fresh b) (fresh_effect_ok b)) as [[_ Hreg] _].
  rewrite Hph in Hreg. destruct Hreg as [Hsub _]. revert Hph Hsub.
  generalize (run (fresh b) events). intros st Hph Hsub.
  destruct e as [| |event session|i r|email password username|email password| | |now];
    cbn [step]; rewrite ?Hph, ?Hsub; try done; try (by split_state st).
  destruct (tasks st !! i) as [t|]; [| done].
  destruct t, r as [[[s|] ?] [?|] | ?]; by split_state st.
Qed.

Lemma nothing_reaches_a_torn_down_provider_witness :
  phase (run (fresh Sample.browser) [Mount; Unmount]) = TornDown
  ∧ user (step (run (fresh Sample.browser) [Mount; Unmount])
               (Settle 0 (Resolved Sample.signed_in None)))
    = user (run (fresh Sample.browser) [Mount; Unmount])
  ∧ user (step (run (fresh Sample.browser) [Mount; Unmount])
               (Notify "SIGNED_IN" (Some Sample.session)))
    = user (run (fresh Sample.browser) [Mount; Unmount]).
Proof.
  assert (H1 : phase (run (fresh Sample.browser) [Mount; Unmount]) = TornDown)
    by (vm_compute; reflexivity).
  destruct (nothing_reaches_a_torn_down_provider Sample.browser [Mount; Unmount]
              (Settle 0 (Resolved Sample.signed_in None)) H1) as (_ & Hu & _).
  destruct (nothing_reaches_a_torn_down_provider Sample.browser [Mount; Unmount]
              (Notify "SIGNED_IN" (Some Sample.session)) H1) as (_ & Hu' & _).
  exact (conj H1 (conj Hu Hu')).
Defined.

(** ** The order of effects in [signOut] *)

Definition is_sign_out_call (e : Entry) : bool :=
  match e with
  | Called SignOut => true
  | _ => false
  end.

(** X8: [signOut] cleans up locally before it asks the remote side, and it
    redirects last, whatever else is handled in between.  The call
    itself, on a mounted provider, empties both storage areas, runs the
    cookie loop, sends the remote sign-out and raises [loading], and
    leaves the user and the location untouched.  The resumption after
    the remote call returned (with or without an error) clears the user
    and leaves the browser and [loading] as they are; it completes
    nothing and starts the 100 ms timer.  Only the resumption after the
    timer replaces the location, clears [loading] and completes
    [signOut]. *)
Theorem signOut_cleans_first_and_redirects_last (st : Provider) (i : nat)
    (data : RemoteData) (error : option AuthError) (r : Reply) :
  phase st = Mounted →
  (localStorage (browser (step st CallSignOut)) = ∅
   ∧ sessionStorage (browser (step st CallSignOut)) = ∅
   ∧ cookie_jar (browser (step st CallSignOut)) = cookie_jar (clear_cookies (browser st))
   ∧ history (browser (step st CallSignOut)) = history (browser st)
   ∧ user (step st CallSignOut) = user st
   ∧ loading (step st CallSignOut) = true
   ∧ count is_sign_out_call (log (step st CallSignOut))
     = S (count is_sign_out_call (log st))
   ∧ count is_signed_out (log (step st CallSignOut)) = count is_signed_out (log st))
  ∧ (tasks st !! i = Some AwaitSignOut →
     user (step st (Settle i (Resolved data error))) = None
     ∧ browser (step st (Settle i (Resolved data error))) = browser st
     ∧ loading (step st (Settle i (Resolved data error))) = loading st
     ∧ tasks (step st (Settle i (Resolved data error))) !! next_task st
       = Some AwaitSignOutDelay
     ∧ count is_signed_out (log (step st (Settle i (Resolved data error))))
       = count is_signed_out (log st))
  ∧ (tasks st !! i = Some AwaitSignOutDelay →
     user (step st (Settle i r)) = user st
     ∧ history (browser (step st (Settle i r))) = "/" :: tail (history (browser st))
     ∧ loading (step st (Settle i r)) = false
     ∧ count is_signed_out (log (step st (Settle i r)))
       = S (count is_signed_out (log st))).
Proof.
  intros Hph. split; [| split].
  - destruct (signOut_called st) as (Hph1 & Hu1 & Hb1).
    destruct (clear_cookies_frame (browser st)) as (_ & _ & _ & _ & Hjar).
    destruct (clear_cookies_frame
                (Dom.sessionStorage_clear (Dom.localStorage_clear (browser st))))
      as (Hls & Hss & Hhist & _ & _).
    rewrite Hb1, Hls, Hss, Hjar, Hhist.
    repeat split; try done.
    + by apply call_raises_loading.
    + cbn [step]. clear. by split_state st.
    + apply signOut_call_completes_nothing.
  - intros Hi.
    destruct (signOut_resolved _ _ data error Hi Hph) as (_ & Hu & Hb).
    split; [done |]. split; [done |].
    split; [| split; [by apply signOut_delay_parked
                     | by apply signOut_resolved_completes_nothing]].
    rewrite (step_settle _ _ _ _ Hi). cbn [resume].
    rewrite commit_loading, schedule_loading. clear Hi.
    destruct error; by split_state st.
  - intros Hi.
    destruct (signOut_delayed _ _ r Hi Hph) as (Hu & Hl & Hb & _).
    rewrite Hb. split; [done |]. split; [by destruct (browser st) |].
    split; [done |]. by apply signOut_delay_completes.
Qed.

Lemma signOut_cleans_first_and_redirects_last_witness :
  phase Sample.settled = Mounted
  ∧ localStorage (browser (step Sample.settled CallSignOut)) = ∅
  ∧ history (browser (step Sample.settled CallSignOut))
    = history (browser Sample.settled)
  ∧ (tasks (run Sample.settled [CallSignOut; Settle 3 Sample.no_session]) !! 2
     = Some AwaitSignOut
     ∧ phase (run Sample.settled [CallSignOut; Settle 3 Sample.no_session]) = Mounted
     ∧ loading (run Sample.settled [CallSignOut; Settle 3 Sample.no_session]) = false
     ∧ loading (step (run Sample.settled [CallSignOut; Settle 3 Sample.no_session])
                     (Settle 2 Sample.no_session)) = false
     ∧ history (browser (step (run Sample.settled [CallSignOut; Settle 3 Sample.no_session])
                           (Settle 2 Sample.no_session)))
       = history (browser Sample.settled))
  ∧ (tasks (run Sample.settled [CallSignOut; Settle 2 Sample.no_session]) !! 4
     = Some AwaitSignOutDelay
     ∧ phase (run Sample.settled [CallSignOut; Settle 2 Sample.no_session]) = Mounted
     ∧ history (browser (step (run Sample.settled [CallSignOut; Settle 2 Sample.no_session])
                           (Settle 4 timer_fired)))
       = "/" :: tail (history (browser Sample.settled))).
Proof.
  assert (H1 : phase Sample.settled = Mounted) by (vm_compute; reflexivity).
  assert (H2 : tasks (run Sample.settled [CallSignOut; Settle 3 Sample.no_session]) !! 2
               = Some AwaitSignOut) by (vm_compute; reflexivity).
  assert (H3 : phase (run Sample.settled [CallSignOut; Settle 3 Sample.no_session])
               = Mounted) by (vm_compute; reflexivity).
  assert (H4 : loading (run Sample.settled [CallSignOut; Settle 3 Sample.no_session])
               = false) by (vm_compute; reflexivity).
  assert (H5 : tasks (run Sample.settled [CallSignOut; Settle 2 Sample.no_session]) !! 4
               = Some AwaitSignOutDelay) by (vm_compute; reflexivity).
  assert (H6 : phase (run Sample.settled [CallSignOut; Settle 2 Sample.no_session])
               = Mounted) by (vm_compute; reflexivity).
  assert (H7 : history (browser (run Sample.settled
                                   [CallSignOut; Settle 3 Sample.no_session]))
               = history (browser Sample.settled)) by (vm_compute; reflexivity).
  assert (H8 : history (browser (run Sample.settled
                                   [CallSignOut; Settle 2 Sample.no_session]))
               = history (browser Sample.settled)) by (vm_compute; reflexivity).
  destruct (signOut_cleans_first_and_redirects_last Sample.settled 0
              (mkRemoteData None None) None Sample.no_session H1)
    as ((Hl & _ & _ & Hh & _) & _).
  destruct (signOut_cleans_first_and_redirects_last
              (run Sample.settled [CallSignOut; Settle 3 Sample.no_session]) 2
              (mkRemoteData None None) None Sample.no_session H3)
    as (_ & HB & _).
  destruct (signOut_cleans_first_and_redirects_last
              (run Sample.settled [CallSignOut; Settle 2 Sample.no_session]) 4
              (mkRemoteData None None) None timer_fired H6)
    as (_ & _ & HC).
  destruct (HB H2) as (_ & Hb & Hld & _).
  destruct (HC H5) as (_ & Hhist & _).
  exact (conj H1 (conj Hl (conj Hh
          (conj (conj H2 (conj H3 (conj H4
                   (conj (eq_trans Hld H4)
                         (eq_trans (f_equal history Hb) H7)))))
                (conj H5 (conj H6 (eq_trans Hhist (f_equal (λ h, "/" :: tail h) H8)))))))).
Defined.

(** ** A notification while a credential operation is in flight *)

Lemma next_task_grows (op : Operation) (st : Provider) (t : Task) :
  next_task st < next_task (commit (schedule op (st, Suspend t))).
Proof. split_state st; reduce_model; lia. Qed.

Lemma notify_keeps_tasks (st : Provider) (event : string) (session : option Session)
    (j : nat) :
  j < next_task st →
  tasks (step st (Notify event session)) !! j = tasks st !! j.
Proof.
  intros Hj. cbn [step]. destruct (subscription st) as [[sub cl]|]; [| done].
  unfold handler.
  destruct (String.eqb event "SIGNED_OUT"), session as [s|]; cbn [orb negb has_user];
    split_state st; reduce_model; rewrite ?lookup_insert_ne by lia; done.
Qed.

(** X9: [loading] is not held by the operation that raised it: a
    notification that arrives while [signIn] is still waiting for the
    remote side clears [loading] when its handler completes (at once for
    a notification without a session, when the upsert settles
    otherwise), although the sign-in has not settled. *)
Theorem notification_clears_loading_during_signIn (b : Browser) (events : list Event)
    (email password event : string) (s : Session) (r : Reply) :
  phase (run (fresh b) events) = Mounted →
  loading (step (run (fresh b) events) (CallSignIn email password)) = true
  ∧ loading (run (run (fresh b) events)
               [CallSignIn email password; Notify event None]) = false
  ∧ tasks (run (run (fresh b) events) [CallSignIn email password; Notify event None])
      !! next_task (run (fresh b) events) = Some AwaitSignIn
  ∧ loading (run (step (run (fresh b) events) (CallSignIn email password))
               [Notify event (Some s);
                Settle (next_task (step (run (fresh b) events)
                                        (CallSignIn email password))) r]) = false.
Proof.
  intros Hph.
  pose proof (run_effect_ok events (fresh b) (fresh_effect_ok b)) as Hok.
  revert Hph Hok. generalize (run (fresh b) events). intros st Hph Hok.
  assert (Hok1 : effect_ok (step st (CallSignIn email password)))
    by (by apply step_effect_ok).
  assert (Hph1 : phase (step st (CallSignIn email password)) = Mounted)
    by (by apply step_phase_mounted).
  split; [by apply call_raises_loading |].
  split; [by apply notify_without_session_clears_loading |].
  split; [| by apply completed_handler_clears_loading].
  cbn [run foldl]. rewrite notify_keeps_tasks.
  - cbn [step]. unfold signIn. apply parked_task_at. by split_state st.
  - cbn [step]. unfold signIn.
    assert (next_task st
            = next_task (call (SignInWithPassword email password) (setLoading true st)))
      as E by (by split_state st).
    rewrite E at 1. apply next_task_grows.
Qed.

Lemma notification_clears_loading_during_signIn_witness :
  phase (run (fresh Sample.browser) [Mount; Settle 0 Sample.no_session]) = Mounted
  ∧ loading (step (run (fresh Sample.browser) [Mount; Settle 0 Sample.no_session])
                  (CallSignIn "a@example.com" "secret")) = true
  ∧ loading (run (run (fresh Sample.browser) [Mount; Settle 0 Sample.no_session])
               [CallSignIn "a@example.com" "secret"; Notify "TOKEN_REFRESHED" None])
    = false
  ∧ tasks (run (run (fresh Sample.browser) [Mount; Settle 0 Sample.no_session])
             [CallSignIn "a@example.com" "secret"; Notify "TOKEN_REFRESHED" None])
      !! next_task (run (fresh Sample.browser) [Mount; Settle 0 Sample.no_session])
    = Some AwaitSignIn.
Proof.
  assert (H1 : phase (run (fresh Sample.browser) [Mount; Settle 0 Sample.no_session])
               = Mounted) by (vm_compute; reflexivity).
  destruct (notification_clears_loading_during_signIn Sample.browser
              [Mount; Settle 0 Sample.no_session] "a@example.com" "secret"
              "TOKEN_REFRESHED" Sample.session Sample.no_session H1)
    as (Ha & Hb & Hc & _).
  exact (conj H1 (conj Ha (conj Hb Hc))).
Defined.

(** ** The writers of the user *)

(** X10: The user changes only in a notification handler, in a resumption of
    the session check, or in the resumption of [signOut] after its
    remote call: no step of [signUp], [signIn] or [signInWithGoogle], no
    settlement of an upsert or of the sign-out timer, no mount, teardown
    or clock tick ever changes it. *)
Theorem only_three_paths_write_the_user (st : Provider) (e : Event) :
  user (step st e) ≠ user st →
  (∃ event session, e = Notify event session)
  ∨ (∃ i r, e = Settle i r
        ∧ (tasks st !! i = Some AwaitGetSession
           ∨ (∃ s, tasks st !! i = Some (AwaitGetUser s))
           ∨ tasks st !! i = Some AwaitSignOut)).
Proof.
  intros H. pose proof (user_writers st e H) as Hw.
  destruct e as [| |event session|i r| | | | |]; try done.
  - left. by eauto.
  - right. exists i, r. split; [done |].
    destruct (tasks st !! i) as [[]|]; try done; eauto.
Qed.

Lemma only_three_paths_write_the_user_witness :
  user (step Sample.settled (Notify "SIGNED_IN" (Some Sample.session)))
  ≠ user Sample.settled
  ∧ ((∃ event session,
        Notify "SIGNED_IN" (Some Sample.session) = Notify event session)
     ∨ (∃ i r, Notify "SIGNED_IN" (Some Sample.session) = Settle i r
           ∧ (tasks Sample.settled !! i = Some AwaitGetSession
              ∨ (∃ s, tasks Sample.settled !! i = Some (AwaitGetUser s))
              ∨ tasks Sample.settled !! i = Some AwaitSignOut))).
Proof.
  assert (H1 : user (step Sample.settled (Notify "SIGNED_IN" (Some Sample.session)))
               ≠ user Sample.settled) by (vm_compute; discriminate).
  exact (conj H1 (only_three_paths_write_the_user Sample.settled
                    (Notify "SIGNED_IN" (Some Sample.session)) H1)).
Defined.

(** * The OAuth redirect helper

    [src/lib/authHandler.js]: [processOAuthRedirectAndSession] asks for
    the session twice, once to log it and once to return it. *)

(** What the helper resolves to: [undefined], or the raw result object
    of [getSession()]. *)
Inductive SessionResult :=
| Undefined
| RemoteResult (data : RemoteData) (error : option AuthError).

(** The final [return supabase.auth.getSession()], outside the [try]. *)
Definition processOAuthRedirectAndSession_return (second : Reply) (log : list Entry)
    : list Entry * Completion SessionResult :=
  let log := Called GetSession :: log in
  match second with
  | Resolved data error => (log, Fulfilled (RemoteResult data error))
  | Raised e => (log, Rejected (Foreign e))
  end.

(** The helper, given what its first and (if it gets that far) its
    second [getSession()] settle to; the log is newest first. *)
Definition processOAuthRedirectAndSession (first second : Reply) (log : list Entry)
    : list Entry * Completion SessionResult :=
  let log := Called GetSession :: log in
  match first with
  | Resolved _ (Some _) => (ConsoleError "Session error:" :: log, Fulfilled Undefined)
  | Resolved data None =>
      match data_session data with
      | Some _ =>
          processOAuthRedirectAndSession_return second (ConsoleLog "Session found:" :: log)
      | None => processOAuthRedirectAndSession_return second log
      end
  | Raised _ =>
      processOAuthRedirectAndSession_return second
        (ConsoleError "Auth handler error:" :: log)
  end.

(** X11: The two failure modes of the first [getSession()] are treated
    differently.  A returned error ends the helper at once: it resolves
    to [undefined] after a single request, whatever a second request
    would have said.  A thrown exception is swallowed and the helper goes
    on like after a success: it sends a second request and settles as
    that one does, returning the raw result (error member included) or
    rejecting with what the second request threw; nothing the first
    request returned reaches the caller. *)
Theorem oauth_helper_returns_the_second_answer (first second : Reply)
    (log : list Entry) :
  (∀ data err, first = Resolved data (Some err) →
     snd (processOAuthRedirectAndSession first second log) = Fulfilled Undefined
     ∧ count is_get_session (fst (processOAuthRedirectAndSession first second log))
       = S (count is_get_session log))
  ∧ ((∀ data err, first ≠ Resolved data (Some err)) →
     snd (processOAuthRedirectAndSession first second log)
     = match second with
       | Resolved data error => Fulfilled (RemoteResult data error)
       | Raised e => Rejected (Foreign e)
       end
     ∧ count is_get_session (fst (processOAuthRedirectAndSession first second log))
       = S (S (count is_get_session log))).
Proof.
  split.
  - intros data err ->. done.
  - intros Hf. destruct first as [data [err|] | e].
    + by destruct (Hf data err).
    + unfold processOAuthRedirectAndSession.
      destruct (data_session data), second; done.
    + by destruct second.
Qed.

Lemma oauth_helper_returns_the_second_answer_witness :
  snd (processOAuthRedirectAndSession
         (Resolved Sample.signed_in (Some (mkAuthError "Failed to fetch")))
         (Resolved Sample.signed_in None) []) = Fulfilled Undefined
  ∧ snd (processOAuthRedirectAndSession
           (Raised (mkAuthError "Failed to fetch"))
           (Resolved Sample.signed_in None) [])
    = Fulfilled (RemoteResult Sample.signed_in None).
Proof.
  destruct (oauth_helper_returns_the_second_answer
              (Resolved Sample.signed_in (Some (mkAuthError "Failed to fetch")))
              (Resolved Sample.signed_in None) []) as (HA & _).
  destruct (oauth_helper_returns_the_second_answer
              (Raised (mkAuthError "Failed to fetch"))
              (Resolved Sample.signed_in None) []) as (_ & HB).
  assert (H : ∀ data err,
            Raised (mkAuthError "Failed to fetch") ≠ Resolved data (Some err))
    by (intros data err; discriminate).
  destruct (HA _ _ eq_refl) as [Hu _].
  destruct (HB H) as [Hs _].
  exact (conj Hu Hs).
Defined.

(** * The navigation switch

    [src/App.tsx]: [AppContent] shows a spinner while the root provider
    is loading and [MainApp] otherwise; [MainApp] keeps the page
    identifier in step with the URL fragment through one effect (run on
    mount only) and the [handleNavigation] callback handed to the
    header, the footer and the pages. *)

Module App.

(** *** The URL fragment *)

Definition code (a : ascii) : N := N_of_ascii a.

(** Tab, LF and CR are removed from whatever is parsed into a URL. *)
Definition is_tab_or_newline (a : ascii) : bool :=
  (code a =? 9)%N || (code a =? 10)%N || (code a =? 13)%N.

Fixpoint remove_tab_or_newline (s : string) : string :=
  match s with
  | EmptyString => EmptyString
  | String a s' =>
      if is_tab_or_newline a then remove_tab_or_newline s'
      else String a (remove_tab_or_newline s')
  end.

(** The fragment percent-encode set: C0 controls, everything above
    U+007E, space, double quote, [<], [>] and backtick. *)
Definition in_fragment_set (a : ascii) : bool :=
  (code a <=? 31)%N || (126 <? code a)%N || (code a =? 32)%N || (code a =? 34)%N
  || (code a =? 60)%N || (code a =? 62)%N || (code a =? 96)%N.

Definition hex (n : N) : ascii :=
  default "0"%char (String.get (N.to_nat n) "0123456789ABCDEF").

Definition percent_encode (a : ascii) : string :=
  String "%" (String (hex (code a / 16)) (String (hex (code a mod 16)) EmptyString)).

Fixpoint encode_fragment (s : string) : string :=
  match s with
  | EmptyString => EmptyString
  | String a s' =>
      if in_fragment_set a then percent_encode a +:+ encode_fragment s'
      else String a (encode_fragment s')
  end.

(** [s.replace(c, "")] for a one-character pattern: the first
    occurrence is removed. *)
Fixpoint remove_first (c : ascii) (s : string) : string :=
  match s with
  | EmptyString => EmptyString
  | String a s' => if Ascii.eqb a c then s' else String a (remove_first c s')
  end.

(** *** The window *)

(** What App.tsx reads and writes of [window]: the path and the
    fragment of [location] (the fragment without its ["#"], empty when
    the URL has none), the listeners registered for the two event types
    (every listener of a type is a closure over the same state setter,
    so their number is all that matters) and the calls of [scrollTo]. *)
Record Window := mkWindow {
  pathname : string;
  fragment : string;
  navigate_listeners : nat;
  popstate_listeners : nat;
  scrolls : nat
}.

(** [window.location.hash] *)
Definition location_hash (w : Window) : string :=
  match fragment w with
  | EmptyString => EmptyString
  | f => String "#" f
  end.

(** [window.location.hash = value]: one leading ["#"] is dropped and the
    rest parsed as a fragment. *)
Definition set_location_hash (value : string) (w : Window) : Window :=
  let input := match value with
               | String "#" rest => rest
               | _ => value
               end in
  mkWindow (pathname w) (encode_fragment (remove_tab_or_newline input))
    (navigate_listeners w) (popstate_listeners w) (scrolls w).

(** [window.scrollTo({ top: 0, behavior: 'smooth' })] *)
Definition scrollTo (w : Window) : Window :=
  mkWindow (pathname w) (fragment w) (navigate_listeners w) (popstate_listeners w)
    (S (scrolls w)).

(** *** The components *)

Inductive Page :=
| FeaturesPage | PricingPage | FAQPage | ContactPage | AboutPage
| PrivacyPage | TermsPage | SecurityPage | HomePage.

(** What [AppContent] renders: the spinner, one of the two standalone
    pages, or the layout (header with the current page identifier, the
    page chosen by [renderPage], footer). *)
Inductive View :=
| Spinner
| LoginPage
| SignupPage
| Layout (currentPage : string) (page : Page).

(** The state of the component tree: [currentPage] of [AppContent]
    (which is never unmounted), and whether [MainApp] is mounted, with
    whether its effect has left a cleanup behind. *)
Record Shell := mkShell {
  currentPage : string;
  main_app : option bool;
  window : Window
}.

(** The tree before the first render of a page loaded at this URL. *)
Definition init (path frag : string) : Shell :=
  mkShell "home" None (mkWindow path frag 0 0 0).

Definition standalone (path : string) : bool :=
  (path =? "/login") || (path =? "/signup").

Definition renderPage (currentPage : string) : Page :=
  if currentPage =? "features" then FeaturesPage
  else if currentPage =? "pricing" then PricingPage
  else if currentPage =? "faqs" then FAQPage
  else if currentPage =? "contact" then ContactPage
  else if currentPage =? "about" then AboutPage
  else if currentPage =? "privacy" then PrivacyPage
  else if currentPage =? "terms" then TermsPage
  else if currentPage =? "security" then SecurityPage
  else HomePage.

(** The render of [MainApp]. *)
Definition MainApp (sh : Shell) : View :=
  if pathname (window sh) =? "/login" then LoginPage
  else if pathname (window sh) =? "/signup" then SignupPage
  else Layout (currentPage sh) (renderPage (currentPage sh)).

(** The render of [AppContent] under the root provider's [loading]. *)
Definition AppContent (loading : bool) (sh : Shell) : View :=
  if loading then Spinner else MainApp sh.

(** What is on screen in a state of the tree. *)
Definition view (sh : Shell) : View :=
  match main_app sh with
  | None => Spinner
  | Some _ => MainApp sh
  end.

(** The listener [handleNavigate] for an event with this [detail]. *)
Definition handleNavigate (detail : string) (sh : Shell) : Shell :=
  mkShell detail (main_app sh) (scrollTo (window sh)).

(** The listener [handlePopState]. *)
Definition handlePopState (sh : Shell) : Shell :=
  mkShell (Js.or_else (remove_first "#" (location_hash (window sh))) "home")
    (main_app sh) (window sh).

(** The effect of [MainApp], run once after it mounts. *)
Definition MainApp_effect (sh : Shell) : Shell :=
  let w := window sh in
  if standalone (pathname w) then mkShell (currentPage sh) (Some false) w
  else
    let hash := remove_first "#" (location_hash w) in
    mkShell
      (if negb (hash =? "") && negb (hash =? currentPage sh) then hash
       else currentPage sh)
      (Some true)
      (mkWindow (pathname w) (fragment w) (S (navigate_listeners w))
         (S (popstate_listeners w)) (scrolls w)).

(** The cleanup the effect returns: it removes [handleNavigate] only. *)
Definition MainApp_cleanup (sh : Shell) : Shell :=
  let w := window sh in
  mkShell (currentPage sh) None
    (mkWindow (pathname w) (fragment w) (pred (navigate_listeners w))
       (popstate_listeners w) (scrolls w)).

(** The callback [handleNavigation] of a mounted [MainApp]. *)
Definition handleNavigation (page : string) (sh : Shell) : Shell :=
  mkShell page (main_app sh)
    (scrollTo (set_location_hash (if page =? "home" then "" else page) (window sh))).

(** *** Events *)

Inductive Event :=
| Render (loading : bool)     (* AppContent renders under this [loading] *)
| Click (page : string)       (* the layout calls [onNavigate(page)] *)
| Navigate (detail : string)  (* a ['navigate'] event is dispatched on [window] *)
| PopState (frag : string).   (* the history moves to an entry with this fragment *)

Definition render (loading : bool) (sh : Shell) : Shell :=
  if loading then
    match main_app sh with
    | Some true => MainApp_cleanup sh
    | Some false => mkShell (currentPage sh) None (window sh)
    | None => sh
    end
  else
    match main_app sh with
    | Some _ => sh
    | None => MainApp_effect sh
    end.

Definition step (sh : Shell) (e : Event) : Shell :=
  match e with
  | Render loading => render loading sh
  | Click page =>
      match view sh with
      | Layout _ _ => handleNavigation page sh
      | _ => sh
      end
  | Navigate detail =>
      Nat.iter (navigate_listeners (window sh)) (handleNavigate detail) sh
  | PopState frag =>
      let w := window sh in
      Nat.iter (popstate_listeners w) handlePopState
        (mkShell (currentPage sh) (main_app sh)
           (mkWindow (pathname w) frag (navigate_listeners w) (popstate_listeners w)
              (scrolls w)))
  end.

Definition run (sh : Shell) (events : list Event) : Shell :=
  fold_left step events sh.

(** *** What the properties speak about *)

(** A page identifier that the URL stores as it is: no character of the
    fragment percent-encode set (which holds tab and the newlines). *)
Fixpoint plain (s : string) : bool :=
  match s with
  | EmptyString => true
  | String a s' => negb (in_fragment_set a) && plain s'
  end.

(** An identifier that survives [handleNavigation] and the way back:
    plain, not empty, and not starting with ["#"]. *)
Definition addressable (page : string) : bool :=
  plain page &&
  match page with
  | EmptyString => false
  | String a _ => negb (Ascii.eqb a "#")
  end.

(** The identifier the URL stands for. *)
Definition page_of_url (w : Window) : string :=
  Js.or_else (fragment w) "home".

(** The number of times [MainApp] mounts along a sequence of events,
    starting mounted or not. *)
Fixpoint mounts (mounted : bool) (events : list Event) : nat :=
  match events with
  | [] => 0
  | Render true :: events' => mounts false events'
  | Render false :: events' =>
      (if mounted then 0 else 1) + mounts true events'
  | _ :: events' => mounts mounted events'
  end.

Definition quiet (e : Event) : bool :=
  match e with
  | Navigate _ => false
  | Click page => addressable page
  | _ => true
  end.

End App.

(** ** Properties of the navigation switch *)

Lemma hash_without_its_mark (w : App.Window) :
  App.remove_first "#" (App.location_hash w) = App.fragment w.
Proof.
  unfold App.location_hash. destruct (App.fragment w); [done|].
  cbn [App.remove_first]. by rewrite Ascii.eqb_refl.
Qed.

Lemma plain_is_stored_as_it_is (s : string) :
  App.plain s = true →
  App.encode_fragment (App.remove_tab_or_newline s) = s.
Proof.
  induction s as [|a s IH]; [done|].
  cbn [App.plain App.remove_tab_or_newline]. intros [Ha Hs]%andb_prop.
  apply negb_true_iff in Ha.
  assert (Ht : App.is_tab_or_newline a = false).
  { unfold App.in_fragment_set in Ha. unfold App.is_tab_or_newline.
    repeat (apply orb_false_elim in Ha as [Ha ?]).
    apply N.leb_gt in Ha.
    repeat (apply orb_false_intro); apply N.eqb_neq; lia. }
  rewrite Ht. cbn [App.encode_fragment]. rewrite Ha. by rewrite IH.
Qed.

Lemma handleNavigation_writes_the_page (page : string) (sh : App.Shell) :
  App.addressable page = true →
  App.currentPage (App.handleNavigation page sh) = page
  ∧ App.fragment (App.window (App.handleNavigation page sh))
    = (if page =? "home" then "" else page)
  ∧ App.page_of_url (App.window (App.handleNavigation page sh)) = page
  ∧ App.main_app (App.handleNavigation page sh) = App.main_app sh
  ∧ App.pathname (App.window (App.handleNavigation page sh))
    = App.pathname (App.window sh)
  ∧ App.navigate_listeners (App.window (App.handleNavigation page sh))
    = App.navigate_listeners (App.window sh)
  ∧ App.popstate_listeners (App.window (App.handleNavigation page sh))
    = App.popstate_listeners (App.window sh).
Proof.
  intros [Hp Hh]%andb_prop.
  unfold App.handleNavigation, App.page_of_url, App.scrollTo, App.set_location_hash.
  cbn [App.currentPage App.window App.main_app App.pathname App.fragment
       App.navigate_listeners App.popstate_listeners].
  assert (Hf : App.encode_fragment
                 (App.remove_tab_or_newline
                    match (if page =? "home" then "" else page) with
                    | String "#" rest => rest
                    | _ => if page =? "home" then "" else page
                    end)
               = (if page =? "home" then "" else page)).
  { destruct (String.eqb_spec page "home") as [-> | Hne]; [done|].
    destruct page as [|a page]; [done|].
    apply negb_true_iff in Hh.
    assert (Hin : (match String a page with
                   | String "#" rest => rest
                   | _ => String a page
                   end) = String a page).
    { destruct a as [[] [] [] [] [] [] [] []]; try reflexivity. discriminate Hh. }
    rewrite Hin, plain_is_stored_as_it_is by done. done. }
  rewrite Hf. repeat split.
  destruct (String.eqb_spec page "home") as [-> | Hne]; [done|].
  by destruct page.
Qed.

Lemma popstate_listeners_agree (n : nat) (sh : App.Shell) :
  App.currentPage (Nat.iter n App.handlePopState sh)
  = (if n is 0 then App.currentPage sh else App.page_of_url (App.window sh))
  ∧ App.main_app (Nat.iter n App.handlePopState sh) = App.main_app sh
  ∧ App.window (Nat.iter n App.handlePopState sh) = App.window sh.
Proof.
  induction n as [|n (IH1 & IH2 & IH3)]; [done|].
  rewrite Nat.iter_succ. set (s := Nat.iter n App.handlePopState sh) in *.
  unfold App.handlePopState.
  cbn [App.currentPage App.main_app App.window].
  rewrite IH3, hash_without_its_mark. done.
Qed.

Lemma navigate_listeners_agree (n : nat) (detail : string) (sh : App.Shell) :
  App.currentPage (Nat.iter n (App.handleNavigate detail) sh)
  = (if n is 0 then App.currentPage sh else detail)
  ∧ App.main_app (Nat.iter n (App.handleNavigate detail) sh) = App.main_app sh
  ∧ App.pathname (App.window (Nat.iter n (App.handleNavigate detail) sh))
    = App.pathname (App.window sh)
  ∧ App.fragment (App.window (Nat.iter n (App.handleNavigate detail) sh))
    = App.fragment (App.window sh)
  ∧ App.navigate_listeners (App.window (Nat.iter n (App.handleNavigate detail) sh))
    = App.navigate_listeners (App.window sh)
  ∧ App.popstate_listeners (App.window (Nat.iter n (App.handleNavigate detail) sh))
    = App.popstate_listeners (App.window sh).
Proof.
  induction n as [|n (IH1 & IH2 & IH3 & IH4 & IH5 & IH6)]; [done|].
  rewrite Nat.iter_succ. set (s := Nat.iter n (App.handleNavigate detail) sh) in *.
  unfold App.handleNavigate, App.scrollTo.
  cbn [App.currentPage App.main_app App.window App.pathname App.fragment
       App.navigate_listeners App.popstate_listeners].
  done.
Qed.

(** The tree of a page outside [/login] and [/signup]: a mounted
    [MainApp] always has its cleanup, and its one [navigate] listener. *)
Definition switched (sh : App.Shell) : Prop :=
  App.standalone (App.pathname (App.window sh)) = false
  ∧ App.main_app sh ≠ Some false
  ∧ App.navigate_listeners (App.window sh)
    = (if App.main_app sh is Some _ then 1 else 0).

(** The page identifier follows the URL once a [popstate] listener
    exists; before that it is still the initial ["home"]. *)
Definition in_step (sh : App.Shell) : Prop :=
  match App.popstate_listeners (App.window sh) with
  | 0 => App.currentPage sh = "home" ∧ App.main_app sh = None
  | S _ => App.currentPage sh = App.page_of_url (App.window sh)
  end.

Lemma layout_is_mounted (sh : App.Shell) (c : string) (p : App.Page) :
  App.view sh = App.Layout c p →
  App.main_app sh ≠ None ∧ c = App.currentPage sh ∧ p = App.renderPage c.
Proof.
  unfold App.view, App.MainApp. destruct (App.main_app sh); [|done].
  repeat case_match; try done. intros [= <- <-]. done.
Qed.

Lemma switched_view (sh : App.Shell) :
  switched sh →
  App.view sh = (if App.main_app sh is Some _
                 then App.Layout (App.currentPage sh) (App.renderPage (App.currentPage sh))
                 else App.Spinner).
Proof.
  intros (Hp & _ & _). unfold App.view, App.MainApp. destruct (App.main_app sh); [|done].
  unfold App.standalone in Hp. apply orb_false_elim in Hp as [-> ->]. done.
Qed.

Lemma switched_step (sh : App.Shell) (e : App.Event) :
  switched sh →
  switched (App.step sh e)
  ∧ App.popstate_listeners (App.window (App.step sh e))
    = App.popstate_listeners (App.window sh) + App.mounts (bool_decide (App.main_app sh ≠ None)) [e]
  ∧ bool_decide (App.main_app (App.step sh e) ≠ None)
    = match e with
      | App.Render loading => negb loading
      | _ => bool_decide (App.main_app sh ≠ None)
      end.
Proof.
  intros Hs. pose proof (switched_view sh Hs) as Hv. destruct Hs as (Hp & Hm & Hn).
  destruct e as [loading | page | detail | frag]; cbn [App.step App.mounts].
  - destruct sh as [c [[]|] [p f n k s]], loading; try done;
      unfold switched, App.render, App.MainApp_effect, App.MainApp_cleanup;
      cbn in *; try rewrite Hp; cbn; subst; repeat split; try done; try lia.
  - rewrite Hv. destruct (App.main_app sh) as [l|] eqn:Hl.
    + unfold switched, App.handleNavigation, App.scrollTo, App.set_location_hash.
      cbn. rewrite Hl. repeat split; try done; lia.
    + unfold switched. rewrite Hl. repeat split; try done; lia.
  - destruct (navigate_listeners_agree (App.navigate_listeners (App.window sh)) detail sh)
      as (_ & H2 & H3 & _ & H5 & H6).
    unfold switched. rewrite H2, H3, H5, H6. repeat split; try done; lia.
  - match goal with |- context [Nat.iter ?n _ ?s] =>
      destruct (popstate_listeners_agree n s) as (_ & H2 & H3) end.
    unfold switched. rewrite H2, H3. cbn. repeat split; try done; lia.
Qed.

Lemma switched_run (events : list App.Event) (sh : App.Shell) :
  switched sh →
  switched (App.run sh events)
  ∧ App.popstate_listeners (App.window (App.run sh events))
    = App.popstate_listeners (App.window sh)
      + App.mounts (bool_decide (App.main_app sh ≠ None)) events.
Proof.
  revert sh. induction events as [|e events IH]; intros sh Hs.
  - cbn. split; [done | lia].
  - destruct (switched_step sh e Hs) as (Hs' & Hk & Hm).
    destruct (IH _ Hs') as (Hs'' & Hk').
    change (App.run sh (e :: events)) with (App.run (App.step sh e) events).
    split; [done|].
    rewrite Hk', Hk, Hm.
    destruct e as [[] | | |]; cbn [App.mounts negb]; lia.
Qed.

Lemma switched_init (path frag : string) :
  App.standalone path = false → switched (App.init path frag).
Proof. done. Qed.

(** X12: on a page outside [/login] and [/signup], the cleanup of
    [MainApp]'s effect removes the [navigate] listener and leaves the
    [popstate] listener behind.  After any sequence of renders, clicks,
    [navigate] events and history moves, the window holds one [popstate]
    listener for every time [MainApp] has mounted, and one [navigate]
    listener exactly while [MainApp] is mounted.  So while the spinner
    is shown again, a history move still changes the page identifier and
    a [navigate] event does nothing. *)
Theorem popstate_listeners_are_never_removed (path frag : string)
    (events : list App.Event) :
  App.standalone path = false →
  App.popstate_listeners (App.window (App.run (App.init path frag) events))
  = App.mounts false events
  ∧ App.navigate_listeners (App.window (App.run (App.init path frag) events))
    = (if App.main_app (App.run (App.init path frag) events) is Some _ then 1 else 0)
  ∧ (App.main_app (App.run (App.init path frag) events) = None →
     0 < App.mounts false events →
     ∀ frag' detail,
       App.currentPage (App.step (App.run (App.init path frag) events) (App.PopState frag'))
       = Js.or_else frag' "home"
       ∧ App.step (App.run (App.init path frag) events) (App.Navigate detail)
         = App.run (App.init path frag) events).
Proof.
  intros Hp.
  destruct (switched_run events _ (switched_init path frag Hp)) as ((_ & _ & Hn) & Hk).
  cbn in Hk. split; [done|]. split; [done|].
  intros Hm Hpos frag' detail. set (sh := App.run _ _) in *.
  rewrite Hm in Hn. split.
  - cbn [App.step].
    match goal with |- context [Nat.iter ?n _ ?s] =>
      destruct (popstate_listeners_agree n s) as (H1 & _) end.
    rewrite H1, Hk. destruct (App.mounts false events); [lia|]. done.
  - cbn [App.step]. by rewrite Hn.
Qed.

Lemma popstate_listeners_are_never_removed_witness :
  App.standalone "/" = false
  ∧ App.popstate_listeners
      (App.window (App.run (App.init "/" "pricing")
         [App.Render true; App.Render false; App.Render true; App.Render false;
          App.Render true])) = 2
  ∧ App.navigate_listeners
      (App.window (App.run (App.init "/" "pricing")
         [App.Render true; App.Render false; App.Render true; App.Render false;
          App.Render true])) = 0.
Proof.
  assert (H : App.standalone "/" = false) by reflexivity.
  destruct (popstate_listeners_are_never_removed "/" "pricing"
              [App.Render true; App.Render false; App.Render true; App.Render false;
               App.Render true] H) as (H1 & H2 & _).
  exact (conj H (conj H1 H2)).
Defined.

Lemma in_step_step (sh : App.Shell) (e : App.Event) :
  switched sh → in_step sh → App.quiet e = true → in_step (App.step sh e).
Proof.
  intros Hs Hi Hq. pose proof (switched_view sh Hs) as Hv.
  destruct e as [loading | page | detail | frag]; [| | done |].
  - destruct Hs as (Hp & Hm & Hn).
    destruct sh as [c [[]|] [p f n k s]], loading; try done;
      unfold in_step, App.step, App.render, App.MainApp_effect, App.MainApp_cleanup in *;
      cbn [App.currentPage App.main_app App.window App.pathname App.fragment
           App.navigate_listeners App.popstate_listeners] in *;
      try rewrite Hp; cbn [App.currentPage App.main_app App.window App.popstate_listeners];
      try (destruct k; [by destruct Hi | done]).
    rewrite hash_without_its_mark. unfold App.page_of_url in *.
    cbn [App.fragment] in *.
    destruct f as [|a f].
    + cbn [negb andb String.eqb Js.or_else]. destruct k; [by destruct Hi | done].
    + change (String a f =? "") with false.
      destruct (String.eqb_spec (String a f) c) as [<- | Hne];
        cbn [negb andb Js.or_else]; done.
  - cbn [App.step]. rewrite Hv. destruct (App.main_app sh) as [l|] eqn:Hl; [|done].
    destruct (handleNavigation_writes_the_page page sh Hq)
      as (H1 & _ & H2 & _ & _ & _ & H6).
    unfold in_step in *. rewrite H6, H1, H2.
    destruct (App.popstate_listeners (App.window sh)); [|done].
    destruct Hi as [_ Hi]. congruence.
  - cbn [App.step].
    match goal with |- context [Nat.iter ?n _ ?s] =>
      destruct (popstate_listeners_agree n s) as (H1 & H2 & H3) end.
    unfold in_step in *. rewrite H1, H2, H3.
    cbn [App.currentPage App.main_app App.window App.popstate_listeners].
    destruct (App.popstate_listeners (App.window sh)); done.
Qed.

Lemma in_step_run (events : list App.Event) (sh : App.Shell) :
  switched sh → in_step sh → forallb App.quiet events = true →
  in_step (App.run sh events).
Proof.
  revert sh. induction events as [|e events IH]; intros sh Hs Hi Hq; [done|].
  cbn [forallb] in Hq. apply andb_prop in Hq as [He Hq].
  change (App.run sh (e :: events)) with (App.run (App.step sh e) events).
  apply IH; [by apply switched_step | by apply in_step_step | done].
Qed.

(** X13: on a page outside [/login] and [/signup], once [MainApp] has
    mounted the page identifier is the one the URL stands for (its
    fragment, ["home"] when there is none), and the layout shows the
    page of that identifier, as long as the pages are changed by clicks
    on addressable identifiers and by history moves only.  A [navigate]
    event is what breaks this: it sets the identifier and leaves the URL
    as it was. *)
Theorem page_follows_the_url (path frag : string) (events : list App.Event) :
  App.standalone path = false →
  forallb App.quiet events = true →
  0 < App.mounts false events →
  App.currentPage (App.run (App.init path frag) events)
  = App.page_of_url (App.window (App.run (App.init path frag) events))
  ∧ (App.main_app (App.run (App.init path frag) events) ≠ None →
     App.view (App.run (App.init path frag) events)
     = App.Layout (App.page_of_url (App.window (App.run (App.init path frag) events)))
         (App.renderPage
            (App.page_of_url (App.window (App.run (App.init path frag) events))))
     ∧ ∀ detail,
         App.currentPage (App.step (App.run (App.init path frag) events)
                            (App.Navigate detail)) = detail
         ∧ App.page_of_url (App.window (App.step (App.run (App.init path frag) events)
                                          (App.Navigate detail)))
           = App.page_of_url (App.window (App.run (App.init path frag) events))).
Proof.
  intros Hp Hq Hpos.
  pose proof (switched_init path frag Hp) as Hs0.
  destruct (switched_run events _ Hs0) as (Hs & Hk). cbn in Hk.
  assert (Hi : in_step (App.run (App.init path frag) events)).
  { apply in_step_run; [done | | done]. done. }
  set (sh := App.run _ _) in *.
  unfold in_step in Hi. rewrite Hk in Hi.
  destruct (App.mounts false events) as [|n]; [lia|].
  split; [done|]. intros Hm. rewrite switched_view by done.
  destruct (App.main_app sh) as [l|] eqn:Hl; [|done]. rewrite <- Hi. split; [done|].
  intros detail. cbn [App.step].
  destruct (navigate_listeners_agree (App.navigate_listeners (App.window sh)) detail sh)
    as (H1 & _ & _ & H4 & _).
  unfold App.page_of_url. rewrite H1, H4.
  destruct Hs as (_ & _ & ->). rewrite Hl. done.
Qed.

Lemma page_follows_the_url_witness :
  App.standalone "/" = false
  ∧ forallb App.quiet
      [App.Render true; App.Render false; App.Click "pricing"; App.PopState "faqs";
       App.Render true; App.PopState ""] = true
  ∧ 0 < App.mounts false
          [App.Render true; App.Render false; App.Click "pricing"; App.PopState "faqs";
           App.Render true; App.PopState ""]
  ∧ App.currentPage
      (App.run (App.init "/" "about")
         [App.Render true; App.Render false; App.Click "pricing"; App.PopState "faqs";
          App.Render true; App.PopState ""])
    = App.page_of_url
        (App.window
           (App.run (App.init "/" "about")
              [App.Render true; App.Render false; App.Click "pricing"; App.PopState "faqs";
               App.Render true; App.PopState ""])).
Proof.
  assert (H1 : App.standalone "/" = false) by reflexivity.
  assert (H2 : forallb App.quiet
                 [App.Render true; App.Render false; App.Click "pricing";
                  App.PopState "faqs"; App.Render true; App.PopState ""] = true)
    by reflexivity.
  assert (H3 : 0 < App.mounts false
                     [App.Render true; App.Render false; App.Click "pricing";
                      App.PopState "faqs"; App.Render true; App.PopState ""])
    by (vm_compute; lia).
  destruct (page_follows_the_url "/" "about" _ H1 H2 H3) as (H & _).
  exact (conj H1 (conj H2 (conj H3 H))).
Defined.

(** X14: a click on an addressable page identifier can be taken back.
    While the layout is shown, [handleNavigation] shows the page of the
    identifier and writes it to the URL, so that after any further click,
    a history move back to the entry this click left shows the same page
    again. *)
Theorem back_restores_a_clicked_page (sh : App.Shell) (page other : string) :
  (∃ c p, App.view sh = App.Layout c p) →
  0 < App.popstate_listeners (App.window sh) →
  App.addressable page = true →
  App.view (App.step sh (App.Click page)) = App.Layout page (App.renderPage page)
  ∧ App.location_hash (App.window (App.step sh (App.Click page)))
    = (if page =? "home" then "" else String "#" page)
  ∧ App.view
      (App.step (App.step (App.step sh (App.Click page)) (App.Click other))
         (App.PopState (App.fragment (App.window (App.step sh (App.Click page))))))
    = App.view (App.step sh (App.Click page)).
Proof.
  intros (c & p & Hv) Hk Ha.
  destruct (layout_is_mounted _ _ _ Hv) as (Hm & _ & _).
  assert (Hpath : ∀ sh' : App.Shell,
            App.pathname (App.window sh') = App.pathname (App.window sh) →
            App.main_app sh' = App.main_app sh →
            App.view sh' = App.Layout (App.currentPage sh')
                             (App.renderPage (App.currentPage sh'))).
  { intros sh' Hp' Hm'. unfold App.view, App.MainApp in *. rewrite Hp', Hm'.
    destruct (App.main_app sh); [|done]. repeat case_match; done. }
  cbn [App.step]. rewrite Hv.
  destruct (handleNavigation_writes_the_page page sh Ha)
    as (H1 & Hf & H2 & H3 & H4 & H5 & H6).
  set (sh1 := App.handleNavigation page sh) in *.
  assert (Hv1 : App.view sh1 = App.Layout page (App.renderPage page)).
  { rewrite (Hpath sh1), H1 by done. done. }
  rewrite Hv1. split; [done|]. split.
  { unfold App.location_hash. rewrite Hf.
    destruct (page =? "home"); [done|]. destruct page; [|done].
    discriminate Ha. }
  set (sh2 := App.handleNavigation other sh1).
  assert (H2' : App.main_app sh2 = App.main_app sh
                ∧ App.pathname (App.window sh2) = App.pathname (App.window sh)
                ∧ App.popstate_listeners (App.window sh2)
                  = App.popstate_listeners (App.window sh)).
  { unfold sh2, App.handleNavigation, App.scrollTo, App.set_location_hash. cbn. done. }
  destruct H2' as (Hm2 & Hp2 & Hk2).
  match goal with |- context [Nat.iter ?n _ ?s] =>
    destruct (popstate_listeners_agree n s) as (G1 & G2 & G3);
    set (sh3 := Nat.iter n _ s) in * end.
  cbn [App.currentPage App.main_app App.window] in G1, G2, G3.
  rewrite (Hpath sh3).
  - rewrite G1, Hk2. destruct (App.popstate_listeners (App.window sh)); [lia|].
    unfold App.page_of_url in *. cbn [App.fragment]. by rewrite H2.
  - rewrite G3. cbn. done.
  - by rewrite G2.
Qed.

Lemma back_restores_a_clicked_page_witness :
  (∃ c p, App.view (App.run (App.init "/" "") [App.Render false]) = App.Layout c p)
  ∧ App.view
      (App.step
         (App.step (App.step (App.run (App.init "/" "") [App.Render false])
                      (App.Click "pricing")) (App.Click "a b"))
         (App.PopState
            (App.fragment
               (App.window (App.step (App.run (App.init "/" "") [App.Render false])
                              (App.Click "pricing"))))))
    = App.Layout "pricing" App.PricingPage.
Proof.
  assert (H1 : ∃ c p, App.view (App.run (App.init "/" "") [App.Render false])
                      = App.Layout c p)
    by (exists "home", App.HomePage; reflexivity).
  assert (H2 : 0 < App.popstate_listeners
                     (App.window (App.run (App.init "/" "") [App.Render false])))
    by (vm_compute; lia).
  assert (H3 : App.addressable "pricing" = true) by reflexivity.
  destruct (back_restores_a_clicked_page _ "pricing" "a b" H1 H2 H3) as (Ha & _ & Hb).
  exact (conj H1 (eq_trans Hb Ha)).
Defined.

Lemma standalone_step (sh : App.Shell) (e : App.Event) :
  App.standalone (App.pathname (App.window sh)) = true →
  App.currentPage sh = "home" →
  App.navigate_listeners (App.window sh) = 0 →
  App.popstate_listeners (App.window sh) = 0 →
  App.scrolls (App.window sh) = 0 →
  App.pathname (App.window (App.step sh e)) = App.pathname (App.window sh)
  ∧ App.currentPage (App.step sh e) = "home"
  ∧ App.navigate_listeners (App.window (App.step sh e)) = 0
  ∧ App.popstate_listeners (App.window (App.step sh e)) = 0
  ∧ App.scrolls (App.window (App.step sh e)) = 0
  ∧ App.main_app (App.step sh e)
    = match e with
      | App.Render loading => if loading then None else
                                if App.main_app sh is Some l then Some l else Some false
      | _ => App.main_app sh
      end.
Proof.
  intros Hp Hc Hn Hk Hs.
  assert (Hv : ∀ c p, App.view sh ≠ App.Layout c p).
  { intros c p. unfold App.view, App.MainApp. unfold App.standalone in Hp.
    destruct (App.main_app sh); [|done].
    destruct (App.pathname (App.window sh) =? "/login"); [done|].
    destruct (App.pathname (App.window sh) =? "/signup"); done. }
  destruct e as [loading | page | detail | frag]; cbn [App.step].
  - destruct sh as [c [[]|] [p f n k s]], loading;
      unfold App.render, App.MainApp_effect, App.MainApp_cleanup; cbn in *;
      try rewrite Hp; cbn; subst; done.
  - destruct (App.view sh) eqn:E; try done. by destruct (Hv currentPage page0).
  - rewrite Hn. done.
  - rewrite Hk. done.
Qed.

(** X15: a page loaded at [/login] or [/signup] never enters the switch.
    Whatever is rendered, clicked, dispatched or moved to in the
    history, and whatever fragment the URL has, the screen shows the
    spinner or the standalone page of the path, never the layout; the
    page identifier stays ["home"], no listener is ever registered and
    the window is never scrolled. *)
Theorem standalone_paths_bypass_the_switch (path frag : string)
    (events : list App.Event) :
  App.standalone path = true →
  App.view (App.run (App.init path frag) events)
  = (if App.main_app (App.run (App.init path frag) events) is Some _
     then (if path =? "/login" then App.LoginPage else App.SignupPage)
     else App.Spinner)
  ∧ App.currentPage (App.run (App.init path frag) events) = "home"
  ∧ App.navigate_listeners (App.window (App.run (App.init path frag) events)) = 0
  ∧ App.popstate_listeners (App.window (App.run (App.init path frag) events)) = 0
  ∧ App.scrolls (App.window (App.run (App.init path frag) events)) = 0.
Proof.
  intros Hp.
  assert (H : ∀ sh,
            App.pathname (App.window sh) = path →
            App.currentPage sh = "home" →
            App.navigate_listeners (App.window sh) = 0 →
            App.popstate_listeners (App.window sh) = 0 →
            App.scrolls (App.window sh) = 0 →
            App.pathname (App.window (App.run sh events)) = path
            ∧ App.currentPage (App.run sh events) = "home"
            ∧ App.navigate_listeners (App.window (App.run sh events)) = 0
            ∧ App.popstate_listeners (App.window (App.run sh events)) = 0
            ∧ App.scrolls (App.window (App.run sh events)) = 0).
  { induction events as [|e events IH]; intros sh H1 H2 H3 H4 H5; [done|].
    change (App.run sh (e :: events)) with (App.run (App.step sh e) events).
    destruct (standalone_step sh e) as (G1 & G2 & G3 & G4 & G5 & _);
      try done; [by rewrite H1|].
    apply IH; try done. by rewrite G1. }
  destruct (H (App.init path frag)) as (G1 & G2 & G3 & G4 & G5); try done.
  repeat split; try done.
  unfold App.view, App.MainApp. rewrite G1.
  destruct (App.main_app _); [|done].
  unfold App.standalone in Hp. destruct (path =? "/login"); [done|].
  cbn in Hp. by rewrite Hp.
Qed.

Lemma standalone_paths_bypass_the_switch_witness :
  App.standalone "/signup" = true
  ∧ App.view (App.run (App.init "/signup" "pricing")
                [App.Render true; App.Render false; App.Navigate "pricing";
                 App.PopState "faqs"; App.Click "about"]) = App.SignupPage.
Proof.
  assert (H : App.standalone "/signup" = true) by reflexivity.
  destruct (standalone_paths_bypass_the_switch "/signup" "pricing"
              [App.Render true; App.Render false; App.Navigate "pricing";
               App.PopState "faqs"; App.Click "about"] H) as (Hv & _).
  exact (conj H Hv).
Defined.
